(** * generate_dataset_script.py: a shallow embedding and its properties

    The script aligns rows of a meteorological feed with a cloud-cover
    value computed from sky-camera images.  This development embeds

    - the Python library calls the script relies on ([int], [str]
      slicing and [lower], [datetime.strptime] / [strftime],
      [date + timedelta], [os.path.join], the [.6f] float format);
    - the script's own functions ([represents_int],
      [_parse_meteoblue_datetime], [_sky_image_filename],
      [_cloud_cover_from_file], [_ensure_images_downloaded], [main]);

    and proves the properties the specification states about them.

    Conventions.  A Python [str] is a [string]: a sequence of code
    points below 256.  A raised exception is an explicit [Raise e];
    [exn] lists instances of Python's [Exception] class and the exit
    signals that lie outside it, and [is_Exception] tells them apart
    as [except Exception] does.  The file system, the output table
    and the calls made to collaborators are components of an explicit
    [state] threaded through a state-and-exception monad. *)

From Stdlib Require Import ZArith String Ascii List Bool Lia.
From Stdlib Require Import Floats.SpecFloat.
From Stdlib Require Import Decimal DecimalString.
From Equations Require Import Equations.
Import ListNotations.

Local Open Scope string_scope.
Local Open Scope Z_scope.

(* ================================================================= *)
(** * Part I.  Definitions *)
(* ================================================================= *)

(* ----------------------------------------------------------------- *)
(** ** Exceptions and results *)

(** What can be raised in the script or in the calls it makes.
    [OtherError] stands for any further subclass of [Exception] a
    collaborator may raise (a decoder error, a [ZeroDivisionError],
    ...).  [SystemExit], [KeyboardInterrupt] and [GeneratorExit]
    derive from [BaseException] and not from [Exception];
    [OtherSignal] stands for any further class of that kind. *)
Inductive exn : Type :=
| ValueError
| IndexError
| OverflowError
| FileNotFoundError
| FileExistsError
| NotADirectoryError
| IsADirectoryError
| OtherError (name : string)
| SystemExit
| KeyboardInterrupt
| GeneratorExit
| OtherSignal (name : string).

Inductive outcome (A : Type) : Type :=
| Ret (a : A)
| Raise (e : exn).

Arguments Ret {A} a.
Arguments Raise {A} e.

Definition is_ValueError (e : exn) : bool :=
  match e with ValueError => true | _ => false end.

Definition is_FileNotFoundError (e : exn) : bool :=
  match e with FileNotFoundError => true | _ => false end.

(** [isinstance(e, Exception)]: what [except Exception] catches. *)
Definition is_Exception (e : exn) : bool :=
  match e with
  | SystemExit | KeyboardInterrupt | GeneratorExit | OtherSignal _ => false
  | _ => true
  end.

Definition obind {A B} (o : outcome A) (k : A -> outcome B) : outcome B :=
  match o with
  | Ret a => k a
  | Raise e => Raise e
  end.

(** [try: body except <class>: handler] on pure results. *)
Definition try_except {A} (body : outcome A) (catches : exn -> bool)
           (handler : outcome A) : outcome A :=
  match body with
  | Ret a => Ret a
  | Raise e => if catches e then handler else Raise e
  end.

(* ----------------------------------------------------------------- *)
(** ** Characters and strings *)

Definition code (c : ascii) : Z := Z.of_N (N_of_ascii c).

Definition chr (n : Z) : ascii := ascii_of_N (Z.to_N n).

Definition in_range (lo hi c : ascii) : bool :=
  (code lo <=? code c) && (code c <=? code hi).

(** Decimal digits among the code points below 256 are ['0'..'9']. *)
Definition is_digit (c : ascii) : bool := in_range "0" "9" c.

Definition digit_val (c : ascii) : option Z :=
  if is_digit c then Some (code c - 48) else None.

Definition digit_char (d : Z) : ascii := chr (48 + d).

(** White space [int] skips around a number, among the code points
    below 256: tab to carriage return, the space, and the two Latin-1
    spaces U+0085 and U+00A0.  The separators U+001C to U+001F are
    not skipped. *)
Definition is_space (c : ascii) : bool :=
  let n := code c in
  ((9 <=? n) && (n <=? 13)) || (n =? 32) || (n =? 133) || (n =? 160).

(** [str.lower] on one code point: ['A'..'Z'] and the Latin-1 capitals. *)
Definition lower_char (c : ascii) : ascii :=
  let n := code c in
  if ((65 <=? n) && (n <=? 90))
     || ((192 <=? n) && (n <=? 222) && negb (n =? 215))
  then chr (n + 32) else c.

Fixpoint lower (s : string) : string :=
  match s with
  | EmptyString => EmptyString
  | String c r => String (lower_char c) (lower r)
  end.

Definition len (s : string) : Z := Z.of_nat (String.length s).

(** [s[:n]]: the first [n] characters, or all of [s] if it is shorter. *)
Fixpoint take (n : nat) (s : string) : string :=
  match n, s with
  | O, _ => EmptyString
  | S _, EmptyString => EmptyString
  | S n', String c r => String c (take n' r)
  end.

(** [s[n:]]. *)
Fixpoint drop (n : nat) (s : string) : string :=
  match n, s with
  | O, _ => s
  | S _, EmptyString => EmptyString
  | S n', String c r => drop n' r
  end.

Fixpoint srev_onto (s acc : string) : string :=
  match s with
  | EmptyString => acc
  | String c r => srev_onto r (String c acc)
  end.

Definition srev (s : string) : string := srev_onto s EmptyString.

Fixpoint all_chars (p : ascii -> bool) (s : string) : bool :=
  match s with
  | EmptyString => true
  | String c r => p c && all_chars p r
  end.

(** [s.endswith(suffix)]. *)
Definition endswith (s suffix : string) : bool :=
  String.eqb (drop (String.length s - String.length suffix) s) suffix
  && (String.length suffix <=? String.length s)%nat.

Definition startswith (s pre : string) : bool := String.prefix pre s.

(** [x in {...}] for a set or list of strings. *)
Definition str_in (x : string) (l : list string) : bool :=
  existsb (String.eqb x) l.

(* ----------------------------------------------------------------- *)
(** ** [int(s)] on a string, base 10 *)

Fixpoint lstrip (s : string) : string :=
  match s with
  | EmptyString => EmptyString
  | String c r => if is_space c then lstrip r else s
  end.

Definition rstrip (s : string) : string := srev (lstrip (srev s)).

Definition strip (s : string) : string := rstrip (lstrip s).

(** Digits, where a single underscore may stand between two digits.
    [prev] tells whether the previous character was a digit. *)
Fixpoint int_digits (acc : Z) (prev : bool) (s : string) : option Z :=
  match s with
  | EmptyString => if prev then Some acc else None
  | String c r =>
      match digit_val c with
      | Some v => int_digits (10 * acc + v) true r
      | None =>
          if Ascii.eqb c "_" && prev then int_digits acc false r else None
      end
  end.

(** The interpreter converts at most this many digits
    ([sys.int_info.default_max_str_digits]). *)
Definition MAX_STR_DIGITS : Z := 4300.

Fixpoint digit_count (s : string) : Z :=
  match s with
  | EmptyString => 0
  | String c r => (if is_digit c then 1 else 0) + digit_count r
  end.

(** [int(s)]: strip white space, read an optional sign, then digits.
    Anything else raises [ValueError], and so do more digits than
    [MAX_STR_DIGITS]. *)
Definition py_int (s : string) : outcome Z :=
  let t := strip s in
  let '(neg, body) :=
    match t with
    | String c r =>
        if Ascii.eqb c "-" then (true, r)
        else if Ascii.eqb c "+" then (false, r)
        else (false, t)
    | EmptyString => (false, t)
    end in
  if MAX_STR_DIGITS <? digit_count body then Raise ValueError else
  match int_digits 0 false body with
  | Some n => Ret (if neg then - n else n)
  | None => Raise ValueError
  end.

(** [represents_int], lines 135-140. *)
Definition represents_int (s : string) : outcome bool :=
  try_except (obind (py_int s) (fun _ => Ret true))
             is_ValueError
             (Ret false).

(* ----------------------------------------------------------------- *)
(** ** Calendar dates: [datetime.date] and [datetime.datetime] *)

Record date : Type := mkDate { year : Z; month : Z; day : Z }.

(** A naive [datetime].  The script only builds values whose second
    and microsecond are 0 ([strptime] without [%S], then whole minutes
    added), so the two fields are not carried. *)
Record datetime : Type := mkDateTime { dt_date : date; hour : Z; minute : Z }.

Definition MINYEAR : Z := 1.
Definition MAXYEAR : Z := 9999.

Definition is_leap (y : Z) : bool :=
  (y mod 4 =? 0) && (negb (y mod 100 =? 0) || (y mod 400 =? 0)).

Definition days_in_month (y m : Z) : Z :=
  if (m =? 2) && is_leap y then 29
  else nth (Z.to_nat m) [-1; 31; 28; 31; 30; 31; 30; 31; 31; 30; 31; 30; 31] 0.

Definition days_before_year (y : Z) : Z :=
  let p := y - 1 in p * 365 + p / 4 - p / 100 + p / 400.

Definition days_before_month (y m : Z) : Z :=
  nth (Z.to_nat m) [-1; 0; 31; 59; 90; 120; 151; 181; 212; 243; 273; 304; 334] 0
  + (if (2 <? m) && is_leap y then 1 else 0).

(** [date.toordinal()]: day 1 is 0001-01-01. *)
Definition toordinal (d : date) : Z :=
  days_before_year (year d) + days_before_month (year d) (month d) + day d.

(** The field check every [date] constructor runs. *)
Definition valid_date (d : date) : bool :=
  (MINYEAR <=? year d) && (year d <=? MAXYEAR)
  && (1 <=? month d) && (month d <=? 12)
  && (1 <=? day d) && (day d <=? days_in_month (year d) (month d)).

Definition valid_time (h mi : Z) : bool :=
  (0 <=? h) && (h <=? 23) && (0 <=? mi) && (mi <=? 59).

Definition valid_datetime (t : datetime) : bool :=
  valid_date (dt_date t) && valid_time (hour t) (minute t).

(** [datetime.date(y, m, d)]. *)
Definition make_date (y m d : Z) : outcome date :=
  let r := mkDate y m d in
  if valid_date r then Ret r else Raise ValueError.

(** [datetime.datetime(y, m, d, h, mi)]. *)
Definition make_datetime (y m d h mi : Z) : outcome datetime :=
  obind (make_date y m d) (fun r =>
  if valid_time h mi then Ret (mkDateTime r h mi) else Raise ValueError).

(** Dates compare as the triples (year, month, day). *)
Definition date_eqb (a b : date) : bool :=
  (year a =? year b) && (month a =? month b) && (day a =? day b).

Definition date_ltb (a b : date) : bool :=
  (year a <? year b)
  || ((year a =? year b)
      && ((month a <? month b)
          || ((month a =? month b) && (day a <? day b)))).

Definition date_leb (a b : date) : bool := date_ltb a b || date_eqb a b.

(** [x in dates] for a list of dates. *)
Definition date_in (x : date) (l : list date) : bool :=
  existsb (date_eqb x) l.

(** [d + timedelta(days=1)]: the day after, carried into the month and
    the year; past 9999-12-31 the result is out of range. *)
Definition next_day (d : date) : outcome date :=
  if day d <? days_in_month (year d) (month d)
  then Ret (mkDate (year d) (month d) (day d + 1))
  else if month d <? 12
  then Ret (mkDate (year d) (month d + 1) 1)
  else if year d <? MAXYEAR
  then Ret (mkDate (year d + 1) 1 1)
  else Raise OverflowError.

(** [d + timedelta(days=n)] for [n >= 0]. *)
Fixpoint date_add_days (d : date) (n : nat) : outcome date :=
  match n with
  | O => Ret d
  | S n' => obind (next_day d) (fun d' => date_add_days d' n')
  end.

(** [t + timedelta(minutes=k)] for [k >= 0]: minutes carry into hours,
    hours into days. *)
Definition add_minutes (t : datetime) (k : Z) : outcome datetime :=
  let total := minute t + k in
  let h := hour t + total / 60 in
  obind (date_add_days (dt_date t) (Z.to_nat (h / 24))) (fun d' =>
  Ret (mkDateTime d' (h mod 24) (total mod 60))).

(** [d.isoformat()] is defined below, with the other formatters. *)

(* ----------------------------------------------------------------- *)
(** ** Fixed-width decimal fields *)

(** The last [w] decimal digits of [n], most significant first.  For
    [0 <= n < 10^w] this is C's [%0<w>d]; every field of a valid date
    or datetime is within its width. *)
Fixpoint fixed_digits (w : nat) (n : Z) : string :=
  match w with
  | O => EmptyString
  | S w' => fixed_digits w' (n / 10) ++ String (digit_char (n mod 10)) EmptyString
  end.

(* ----------------------------------------------------------------- *)
(** ** [strftime] and [strptime] for the directives [%Y %m %d %H %M] *)

Inductive directive : Type := dY | dm | dd | dH | dM.

Definition directive_eqb (a b : directive) : bool :=
  match a, b with
  | dY, dY | dm, dm | dd, dd | dH, dH | dM, dM => true
  | _, _ => false
  end.

Definition directive_of (c : ascii) : option directive :=
  if Ascii.eqb c "Y" then Some dY
  else if Ascii.eqb c "m" then Some dm
  else if Ascii.eqb c "d" then Some dd
  else if Ascii.eqb c "H" then Some dH
  else if Ascii.eqb c "M" then Some dM
  else None.

(** A format string read left to right: a directive, or a character
    that stands for itself ([%%] stands for [%]).  [None] marks a
    directive outside the table. *)
Inductive piece : Type :=
| Field (d : directive)
| Literal (c : ascii).

Fixpoint pieces (fmt : string) : option (list piece) :=
  match fmt with
  | EmptyString => Some []
  | String c r =>
      if Ascii.eqb c "%" then
        match r with
        | EmptyString => None
        | String k r' =>
            if Ascii.eqb k "%" then option_map (cons (Literal "%")) (pieces r')
            else match directive_of k with
                 | Some d => option_map (cons (Field d)) (pieces r')
                 | None => None
                 end
        end
      else option_map (cons (Literal c)) (pieces r)
  end.

Definition field_value (d : directive) (t : datetime) : Z :=
  match d with
  | dY => year (dt_date t)
  | dm => month (dt_date t)
  | dd => day (dt_date t)
  | dH => hour t
  | dM => minute t
  end.

(** A number in decimal, without padding. *)
Definition decimal (n : Z) : string :=
  NilZero.string_of_uint (N.to_uint (Z.to_N n)).

(** The text of a field.  [strftime] hands the format to the C
    library, which writes the month, the day, the hour and the minute
    in two digits, zero-padded, and the year of [%Y] as a plain
    decimal number: four digits from the year 1000 on, fewer before. *)
Definition render_field (d : directive) (n : Z) : string :=
  match d with
  | dY => decimal n
  | _ => fixed_digits 2 n
  end.

Definition render_piece (t : datetime) (p : piece) : string :=
  match p with
  | Field d => render_field d (field_value d t)
  | Literal c => String c EmptyString
  end.

(** [t.strftime(fmt)], also what [f"{t:fmt}"] calls.  The model covers
    formats made of the five directives and literal characters; on any
    other format it yields the format itself. *)
Definition strftime (t : datetime) (fmt : string) : string :=
  match pieces fmt with
  | Some ps => String.concat "" (map (render_piece t) ps)
  | None => fmt
  end.

(** [d.isoformat()]: [YYYY-MM-DD], the year always in four digits. *)
Definition isoformat (d : date) : string :=
  fixed_digits 4 (year d) ++ "-" ++ fixed_digits 2 (month d) ++ "-"
  ++ fixed_digits 2 (day d).

(** The regular expressions [strptime] builds are concatenations and
    alternations of character tests.  [rmatch r s] lists the ways [r]
    matches a prefix of [s], as (matched text, rest), in the order a
    backtracking matcher tries them. *)
Inductive re : Type :=
| Lit (c : ascii)
| Rng (lo hi : ascii)
| Dig
| Cat (a b : re)
| Alt (a b : re).

(** Literals match without regard to case: the pattern is compiled
    with [IGNORECASE]. *)
Definition lit_matches (c x : ascii) : bool :=
  Ascii.eqb (lower_char x) (lower_char c).

Definition one_char (p : ascii -> bool) (s : string) : list (string * string) :=
  match s with
  | String x r => if p x then [(String x EmptyString, r)] else []
  | EmptyString => []
  end.

Fixpoint rmatch (r : re) (s : string) : list (string * string) :=
  match r with
  | Lit c => one_char (lit_matches c) s
  | Rng lo hi => one_char (in_range lo hi) s
  | Dig => one_char is_digit s
  | Cat a b =>
      flat_map (fun '(x, rest) =>
                  map (fun '(y, rest') => (x ++ y, rest')) (rmatch b rest))
               (rmatch a s)
  | Alt a b => rmatch a s ++ rmatch b s
  end.

(** The table of [_strptime.TimeRE]:
    [%Y] is [\d\d\d\d],
    [%m] is [1[0-2]|0[1-9]|[1-9]],
    [%d] is [3[0-1]|[1-2]\d|0[1-9]|[1-9]| [1-9]],
    [%H] is [2[0-3]|[0-1]\d|\d],
    [%M] is [[0-5]\d|\d]. *)
Definition directive_re (d : directive) : re :=
  match d with
  | dY => Cat Dig (Cat Dig (Cat Dig Dig))
  | dm => Alt (Cat (Lit "1") (Rng "0" "2"))
         (Alt (Cat (Lit "0") (Rng "1" "9")) (Rng "1" "9"))
  | dd => Alt (Cat (Lit "3") (Rng "0" "1"))
         (Alt (Cat (Rng "1" "2") Dig)
         (Alt (Cat (Lit "0") (Rng "1" "9"))
         (Alt (Rng "1" "9") (Cat (Lit " ") (Rng "1" "9")))))
  | dH => Alt (Cat (Lit "2") (Rng "0" "3"))
         (Alt (Cat (Rng "0" "1") Dig) Dig)
  | dM => Alt (Cat (Rng "0" "5") Dig) Dig
  end.

Definition piece_re (p : piece) : re :=
  match p with
  | Field d => directive_re d
  | Literal c => Lit c
  end.

(** All matches of a sequence of pieces against a prefix of [s]: the
    text each piece matched, and the rest.  The head of the list is the
    match [re.match] reports. *)
Fixpoint match_pieces (ps : list piece) (s : string)
  : list (list (piece * string) * string) :=
  match ps with
  | [] => [([], s)]
  | p :: ps' =>
      flat_map (fun '(x, rest) =>
                  map (fun '(xs, rest') => ((p, x) :: xs, rest'))
                      (match_pieces ps' rest))
               (rmatch (piece_re p) s)
  end.

(** [found_dict.get(d)]. *)
Fixpoint found (d : directive) (m : list (piece * string)) : option string :=
  match m with
  | [] => None
  | (Field d', x) :: m' => if directive_eqb d d' then Some x else found d m'
  | (Literal _, _) :: m' => found d m'
  end.

(** A directive that occurs twice names a group twice, which the
    pattern compiler refuses. *)
Fixpoint repeated_field (ps : list piece) : bool :=
  match ps with
  | [] => false
  | Field d :: ps' =>
      existsb (fun p => match p with
                        | Field d' => directive_eqb d d'
                        | Literal _ => false
                        end) ps'
      || repeated_field ps'
  | Literal _ :: ps' => repeated_field ps'
  end.

Definition int_field (d : directive) (default : Z) (m : list (piece * string))
  : outcome Z :=
  match found d m with
  | Some x => py_int x
  | None => Ret default
  end.

(** [datetime.datetime.strptime(data, fmt)].  The pattern must match at
    the start of [data] and the reported match must use all of it;
    the fields found are converted with [int] (defaults: year 1900, or
    1904 for a 29 February without a year; month 1; day 1; 00:00) and
    handed to the [datetime] constructor.  Every failure is a
    [ValueError]. *)
Definition strptime (data fmt : string) : outcome datetime :=
  match pieces fmt with
  | None => Raise ValueError
  | Some ps =>
      if repeated_field ps then Raise ValueError else
      match match_pieces ps data with
      | [] => Raise ValueError
      | (m, rest) :: _ =>
          if negb (String.eqb rest EmptyString) then Raise ValueError else
          obind (int_field dm 1 m) (fun mo =>
          obind (int_field dd 1 m) (fun da =>
          obind (match found dY m with
                 | Some x => py_int x
                 | None => Ret (if (mo =? 2) && (da =? 29) then 1904 else 1900)
                 end) (fun ye =>
          obind (int_field dH 0 m) (fun ho =>
          obind (int_field dM 0 m) (fun mi =>
          make_datetime ye mo da ho mi)))))
      end
  end.

(* ----------------------------------------------------------------- *)
(** ** The Timestamp Parser and the Artifact Locator *)

(** [_parse_meteoblue_datetime], lines 15-30.  [not cell] is the empty
    string test. *)
Definition _parse_meteoblue_datetime (cell : string) : outcome (option datetime) :=
  if String.eqb cell EmptyString || (len cell <? 13) then Ret None else
  let date_part := take 8 cell in
  obind (represents_int date_part) (fun ok =>
  if negb ok then Ret None else
  try_except (obind (strptime (take 13 cell) "%Y%m%dT%H%M")
                    (fun t => Ret (Some t)))
             is_ValueError
             (Ret None)).

(** [_sky_image_filename], lines 33-39. *)
Definition _sky_image_filename (t : datetime) : string :=
  strftime t "%Y-%m-%d-%H-%M" ++ "-0.jpg".

(* ----------------------------------------------------------------- *)
(** ** Floats and the [.6f] format *)

(** A Python float is an IEEE value: a signed zero, an infinity, a NaN
    or [(-1)^s * m * 2^e]. *)
Definition float : Type := spec_float.

(** [num / den] rounded to the nearest integer, ties to even. *)
Definition round_half_even (num den : Z) : Z :=
  let q := num / den in
  let r2 := 2 * (num mod den) in
  if r2 <? den then q
  else if den <? r2 then q + 1
  else if Z.even q then q else q + 1.

(** [m * 2^e] in millionths, correctly rounded. *)
Definition millionths (m : positive) (e : Z) : Z :=
  if 0 <=? e then Z.pos m * 2 ^ e * 10 ^ 6
  else round_half_even (Z.pos m * 10 ^ 6) (2 ^ (- e)).

(** [f"{x:.6f}"]. *)
Definition format_6f (x : float) : string :=
  match x with
  | S754_nan => "nan"
  | S754_infinity s => if s then "-inf" else "inf"
  | S754_zero s => (if s then "-" else "") ++ "0.000000"
  | S754_finite s m e =>
      let n := millionths m e in
      (if s then "-" else "") ++ decimal (n / 10 ^ 6) ++ "."
      ++ fixed_digits 6 (n mod 10 ^ 6)
  end.

(** [fmt], lines 129-130. *)
Definition fmt (x : option float) : string :=
  match x with
  | None => ""
  | Some v => format_6f v
  end.


(** A decimal string with exactly six fractional digits: an optional
    minus sign, one or more digits, a point, six digits. *)
Definition digits_point_six (s : string) : bool :=
  let n := String.length s in
  let int_part := take (n - 7) s in
  (7 <? n)%nat
  && all_chars is_digit int_part
  && String.eqb (take 1 (drop (n - 7) s)) "."
  && all_chars is_digit (drop (n - 6) s).

Definition six_decimals (s : string) : bool :=
  match s with
  | String c r => if Ascii.eqb c "-" then digits_point_six r else digits_point_six s
  | EmptyString => false
  end.

(* ----------------------------------------------------------------- *)
(** ** [os.path.join] *)

Definition os_path_join (a b : string) : string :=
  if startswith b "/" then b
  else if String.eqb a "" || endswith a "/" then a ++ b
  else a ++ "/" ++ b.

(* ----------------------------------------------------------------- *)
(** ** The world: file system, output table, calls *)

(** What a path names. *)
Inductive node : Type :=
| Missing
| RegularFile
| Directory (entries : list string).

Definition filesystem : Type := string -> node.

Definition set_node (f : filesystem) (p : string) (n : node) : filesystem :=
  fun q => if String.eqb q p then n else f q.

(** Calls the script makes, to the operating system, to its
    collaborators and to its own components. *)
Inductive event : Type :=
| os_makedirs_called (path : string)
| os_listdir_called (path : string)
| os_path_exists_called (path : string)
| download_sky_camera_images_called (start_date end_date : string)
| load_and_trim_called (path : string)
| process_image_rb_ratio_called
| calculate_cloud_cover_called
| parse_called (cell : string)
| filename_called (t : datetime)
| cloud_cover_from_file_called (path : string).

Record state : Type := mkState {
  fs : filesystem;
  written : list (list string);   (* rows given to [writer.writerow] *)
  calls : list event              (* oldest first *)
}.

(** A computation reads and updates the state and returns or raises;
    the state reached when an exception is raised is kept. *)
Definition M (A : Type) : Type := state -> outcome A * state.

Definition ret {A} (a : A) : M A := fun s => (Ret a, s).

Definition bind {A B} (m : M A) (k : A -> M B) : M B :=
  fun s => match m s with
           | (Ret a, s') => k a s'
           | (Raise e, s') => (Raise e, s')
           end.

Notation "x <- m ;; k" := (bind m (fun x => k))
  (at level 61, m at next level, right associativity).
Notation "m ;; k" := (bind m (fun _ => k))
  (at level 61, right associativity).

Definition lift {A} (o : outcome A) : M A := fun s => (o, s).

Definition log (e : event) : M unit :=
  fun s => (Ret tt, mkState (fs s) (written s) (calls s ++ [e])).

(** [try: body except <class>: handler]. *)
Definition try_catch {A} (body : M A) (catches : exn -> bool) (handler : M A)
  : M A :=
  fun s => match body s with
           | (Ret a, s') => (Ret a, s')
           | (Raise e, s') => if catches e then handler s' else (Raise e, s')
           end.

(** [for x in l: body x]. *)
Fixpoint for_each {A} (l : list A) (body : A -> M unit) : M unit :=
  match l with
  | [] => ret tt
  | x :: l' => body x ;; for_each l' body
  end.

(** [for x in l: results.append(body x)]. *)
Fixpoint collect {A B} (l : list A) (body : A -> M B) : M (list B) :=
  match l with
  | [] => ret []
  | x :: l' => y <- body x ;; ys <- collect l' body ;; ret (y :: ys)
  end.

(** [os.makedirs(path, exist_ok=True)] for a path of one component. *)
Definition os_makedirs (path : string) : M unit :=
  log (os_makedirs_called path) ;;
  fun s => match fs s path with
           | Directory _ => (Ret tt, s)
           | Missing =>
               (Ret tt, mkState (set_node (fs s) path (Directory []))
                                (written s) (calls s))
           | RegularFile => (Raise FileExistsError, s)
           end.

(** [os.listdir(path)]. *)
Definition os_listdir (path : string) : M (list string) :=
  log (os_listdir_called path) ;;
  fun s => match fs s path with
           | Directory names => (Ret names, s)
           | Missing => (Raise FileNotFoundError, s)
           | RegularFile => (Raise NotADirectoryError, s)
           end.

(** [os.path.exists(path)]. *)
Definition os_path_exists (path : string) : M bool :=
  log (os_path_exists_called path) ;;
  fun s => (Ret (match fs s path with Missing => false | _ => true end), s).

(** [writer.writerow(row)]. *)
Definition writerow (row : list string) : M unit :=
  fun s => (Ret tt, mkState (fs s) (written s ++ [row]) (calls s)).

(** [open(path, "w")] for a path of one component: the file is
    created, or emptied if it is there, and the table written through
    it starts empty; a directory cannot be opened. *)
Definition open_for_writing (path : string) : M unit :=
  fun s => match fs s path with
           | Directory _ => (Raise IsADirectoryError, s)
           | _ => (Ret tt, mkState (set_node (fs s) path RegularFile)
                                   [] (calls s))
           end.

(** [open(path)], for reading. *)
Definition open_for_reading (path : string) : M unit :=
  fun s => match fs s path with
           | RegularFile => (Ret tt, s)
           | Missing => (Raise FileNotFoundError, s)
           | Directory _ => (Raise IsADirectoryError, s)
           end.

(** What the script imports: the three stages of the image pipeline,
    the value [float(...)] makes of the last stage's result, and the
    downloader.  Each may return or raise anything. *)
Record imports : Type := mkImports {
  image : Type;
  ratio : Type;
  cover : Type;
  load_and_trim : string -> outcome image;
  process_image_rb_ratio : image -> outcome ratio;
  calculate_cloud_cover : ratio -> outcome cover;
  py_float : cover -> outcome float;
  download_sky_camera_images :
    string -> string -> filesystem -> outcome unit * filesystem
}.

(** Some stage of the pipeline run on [path] (load-and-trim, channel
    ratio, cover percentage, or the final [float(...)]) raises [e]. *)
Inductive pipeline_raises (C : imports) (path : string) : exn -> Prop :=
| load_raises e :
    load_and_trim C path = Raise e -> pipeline_raises C path e
| ratio_raises t e :
    load_and_trim C path = Ret t ->
    process_image_rb_ratio C t = Raise e -> pipeline_raises C path e
| cover_raises t r e :
    load_and_trim C path = Ret t ->
    process_image_rb_ratio C t = Ret r ->
    calculate_cloud_cover C r = Raise e -> pipeline_raises C path e
| float_raises t r c e :
    load_and_trim C path = Ret t ->
    process_image_rb_ratio C t = Ret r ->
    calculate_cloud_cover C r = Ret c ->
    py_float C c = Raise e -> pipeline_raises C path e.

(** The collaborators of the specification: imports whose image
    pipeline reports a failure (a decode error, a malformed image, an
    arithmetic error) with an instance of [Exception]. *)
Record collaborators : Type := mkCollaborators {
  imported :> imports;
  pipeline_exceptions :
    forall path e, pipeline_raises imported path e -> is_Exception e = true
}.

Definition SKY_IMAGE_DIR : string := "sky_camera_images".

Definition METEOBLUE_CSV : string := os_path_join "Data" "meteoblue_data.csv".

Definition OUTPUT_CSV : string := "training_data_with_cloud_cover.csv".

Definition metadata_labels : list string := ["variable"; "unit"; "level"].

Definition cover_labels : list string :=
  ["cloud_cover_t"; "cloud_cover_t+5m"; "cloud_cover_t+10m"].

Definition times : list string :=
  ["0900"; "1000"; "1100"; "1200"; "1300"; "1400"; "1500"].

(** An upper bound on how far a date can still advance, used to show
    that the date loop ends. *)
Definition rank (d : date) : Z :=
  (Z.min (year d) MAXYEAR * 12 + Z.min (month d) 12) * 32 + Z.min (day d) 31.

Definition rank_top : Z := (MAXYEAR * 12 + 12) * 32 + 31.

Definition steps_left (d : date) : nat := Z.to_nat (rank_top - rank d).

Definition inspect {A} (a : A) : {b : A | a = b} := exist _ a eq_refl.

#[local] Opaque steps_left next_day date_leb.

(** The DateRange Expander, lines 78-84:
    [while cur <= end_d: dates.append(cur); cur += delta]. *)
Equations? date_range (cur end_d : date) : outcome (list date)
  by wf (steps_left cur) lt :=
  date_range cur end_d with date_leb cur end_d := {
    | false := Ret [];
    | true with inspect (next_day cur) := {
        | exist _ (Raise e) _ := Raise e;
        | exist _ (Ret nxt) Hnext :=
            obind (date_range nxt end_d) (fun rest => Ret (cur :: rest)) } }.
Proof.
  clear date_range.
  #[local] Transparent steps_left next_day.
  unfold steps_left, next_day, rank, rank_top, MAXYEAR in *.
  destruct cur as [y m d]; cbn [year month day] in *.
  assert (Hdim : days_in_month y m <= 31).
  { unfold days_in_month.
    destruct ((m =? 2) && is_leap y); [lia|].
    destruct (Z.to_nat m) as [|[|[|[|[|[|[|[|[|[|[|[|[|[|k]]]]]]]]]]]]]];
      cbn; try lia; destruct k; cbn; lia. }
  destruct (Z.ltb_spec d (days_in_month y m));
    [|destruct (Z.ltb_spec m 12); [|destruct (Z.ltb_spec y 9999)]];
    inversion Hnext; subst; cbn [year month day]; lia.
Qed.

#[local] Transparent steps_left next_day date_leb.

(* ----------------------------------------------------------------- *)
(** ** The script's effectful functions *)

Section Script.

Context (C : imports).

(** A stage of the image pipeline: the call is recorded, its result
    returned or its exception raised. *)
Definition stage {A} (e : event) (r : outcome A) : M A := log e ;; lift r.

(** The Feature Computer: [_cloud_cover_from_file], lines 42-51. *)
Definition _cloud_cover_from_file (path : string) : M (option float) :=
  present <- os_path_exists path ;;
  if negb present then ret None else
  try_catch
    (trimmed <- stage (load_and_trim_called path) (load_and_trim C path) ;;
     rb <- stage process_image_rb_ratio_called
                 (process_image_rb_ratio C trimmed) ;;
     c <- stage calculate_cloud_cover_called (calculate_cloud_cover C rb) ;;
     x <- lift (py_float C c) ;;
     ret (Some x))
    is_Exception
    (ret None).

(** A name the trigger counts as an image. *)
Definition is_image_name (name : string) : bool :=
  endswith (lower name) ".jpg".

(** The call to the downloader: it may change the file system. *)
Definition download (start_date end_date : string) : M unit :=
  log (download_sky_camera_images_called start_date end_date) ;;
  fun s =>
    let '(r, f) := download_sky_camera_images C start_date end_date (fs s) in
    (r, mkState f (written s) (calls s)).

(** The Acquisition Trigger: [_ensure_images_downloaded], lines 54-68. *)
Definition _ensure_images_downloaded (start_date end_date : date) : M unit :=
  os_makedirs SKY_IMAGE_DIR ;;
  has_any <- try_catch
               (names <- os_listdir SKY_IMAGE_DIR ;;
                ret (existsb is_image_name names))
               is_FileNotFoundError
               (ret false) ;;
  if has_any then ret tt
  else download (isoformat start_date) (isoformat end_date).

(** [row[0]]. *)
Definition first_cell (row : list string) : outcome string :=
  match row with
  | c :: _ => Ret c
  | [] => Raise IndexError
  end.

(** The Record Merger on one feed row: the body of the loop of
    [main], lines 103-132.  Every [continue] ends the row. *)
Definition merge_row (dates : list date) (row : list string) : M unit :=
  match row with
  | [] => ret tt
  | _ :: _ =>
      c0 <- lift (first_cell row) ;;
      if str_in c0 metadata_labels then writerow (row ++ cover_labels)
      else
        c0' <- lift (first_cell row) ;;
        dt <- stage (parse_called c0') (_parse_meteoblue_datetime c0') ;;
        match dt with
        | None => ret tt
        | Some dt =>
            if negb (date_in (dt_date dt) dates) then ret tt else
            let hhmm := strftime dt "%H%M" in
            if negb (str_in hhmm times) then ret tt else
            covers <- collect [0; 5; 10] (fun minutes =>
                        dt_i <- lift (add_minutes dt minutes) ;;
                        name <- stage (filename_called dt_i)
                                      (Ret (_sky_image_filename dt_i)) ;;
                        let img_path := os_path_join SKY_IMAGE_DIR name in
                        log (cloud_cover_from_file_called img_path) ;;
                        _cloud_cover_from_file img_path) ;;
            writerow (row ++ map fmt covers)
        end
  end.

(** [s[a:b]]. *)
Definition slice (a b : nat) (s : string) : string := take (b - a) (drop a s).

(** [datetime.date(int(s[:4]), int(s[5:7]), int(s[8:]))], lines 75-76. *)
Definition date_of_iso (s : string) : outcome date :=
  obind (py_int (take 4 s)) (fun y =>
  obind (py_int (slice 5 7 s)) (fun m =>
  obind (py_int (drop 8 s)) (fun d =>
  make_date y m d))).

(** [main], lines 71-132, for a given date range and a given feed:
    the rows [csv.reader] yields from the feed file once it is open.
    [OUTPUT_CSV] has no directory part, so lines 93-95 create
    nothing.  The output file is opened before the feed file. *)
Definition main_for (start_date end_date : string) (feed : list (list string))
  : M unit :=
  start_d <- lift (date_of_iso start_date) ;;
  end_d <- lift (date_of_iso end_date) ;;
  dates <- lift (date_range start_d end_d) ;;
  _ensure_images_downloaded start_d end_d ;;
  open_for_writing OUTPUT_CSV ;;
  open_for_reading METEOBLUE_CSV ;;
  for_each feed (merge_row dates).

Definition main : list (list string) -> M unit :=
  main_for "2019-05-23" "2019-05-23".

End Script.

(* ----------------------------------------------------------------- *)
(** ** Vocabulary of the properties *)

(** No call to the downloader is among [l]. *)
Definition no_download (l : list event) : Prop :=
  forall a b, ~ In (download_sky_camera_images_called a b) l.

(** The file system once [os.makedirs] has run on the image directory. *)
Definition with_image_dir (f : filesystem) : filesystem :=
  match f SKY_IMAGE_DIR with
  | Missing => set_node f SKY_IMAGE_DIR (Directory [])
  | _ => f
  end.

Definition is_directory (n : node) : bool :=
  match n with
  | Directory _ => true
  | _ => false
  end.

(** The image directory holds at least one recognized image file: a
    name that ends in [.jpg], whatever the case of its letters. *)
Definition has_image (f : filesystem) : bool :=
  match f SKY_IMAGE_DIR with
  | Directory names =>
      existsb (fun name => endswith (lower name) ".jpg") names
  | _ => false
  end.

(** The contract of the acquisition collaborator: when it returns,
    the image directory holds captures. *)
Definition downloader_populates (C : imports) : Prop :=
  forall a b f f',
    download_sky_camera_images C a b f = (Ret tt, f') -> has_image f' = true.

(** A weaker contract: the collaborator does not remove the image
    directory. *)
Definition downloader_keeps_directory (C : imports) : Prop :=
  forall a b f f',
    is_directory (f SKY_IMAGE_DIR) = true ->
    download_sky_camera_images C a b f = (Ret tt, f') ->
    is_directory (f' SKY_IMAGE_DIR) = true.

(** The order on dates, as a proposition. *)
Definition date_le (a b : date) : Prop :=
  year a < year b
  \/ (year a = year b
      /\ (month a < month b \/ (month a = month b /\ day a <= day b))).

(** Each date of the list is followed by the day after it. *)
Fixpoint consecutive_days (l : list date) : Prop :=
  match l with
  | a :: (b :: _) as rest => next_day a = Ret b /\ consecutive_days rest
  | _ => True
  end.

(** The last date a [date] can hold, [date.max]. *)
Definition last_date : date := mkDate 9999 12 31.

(** What the loop yields from a valid [cur] up to a valid [end_d]
    that is not the last date. *)
Definition range_from (cur end_d : date) (l : list date) : Prop :=
  hd_error l = Some cur
  /\ last l cur = end_d
  /\ consecutive_days l
  /\ (forall i d, nth_error l i = Some d ->
                  toordinal d = toordinal cur + Z.of_nat i)
  /\ (forall d, In d l <->
                valid_date d = true /\ date_le cur d /\ date_le d end_d)
  /\ Z.of_nat (length l) = toordinal end_d - toordinal cur + 1.

(** The texts of a match of a sequence of pieces. *)
Inductive pieces_match
  : list piece -> string -> list (piece * string) -> string -> Prop :=
| pieces_match_nil s : pieces_match [] s [] s
| pieces_match_cons p ps s x r m rest :
    In (x, r) (rmatch (piece_re p) s) ->
    pieces_match ps r m rest ->
    pieces_match (p :: ps) s ((p, x) :: m) rest.

Definition stamp_pieces : list piece :=
  [Field dY; Field dm; Field dd; Literal "T"; Field dH; Field dM].


(** The number written in the [w] characters of [s] from position
    [pos], if they are there and are all digits. *)
Definition digits_at (s : string) (pos w : nat) : option Z :=
  let f := take w (drop pos s) in
  if (String.length f =? w)%nat && all_chars is_digit f
  then int_digits 0 false f else None.


(** The allow-set of times of day, as hour and minute. *)
Definition observation_times : list (Z * Z) :=
  [(9, 0); (10, 0); (11, 0); (12, 0); (13, 0); (14, 0); (15, 0)].

Definition observed (h mi : Z) : bool :=
  existsb (fun p => (fst p =? h) && (snd p =? mi)) observation_times.

Definition upto (k : nat) : list Z := map Z.of_nat (seq 0 k).

(** The three feature lookups of a retained row. *)
Definition covers_of (C : imports) (dt : datetime)
  : M (list (option float)) :=
  collect [0; 5; 10] (fun minutes =>
    dt_i <- lift (add_minutes dt minutes) ;;
    name <- stage (filename_called dt_i) (Ret (_sky_image_filename dt_i)) ;;
    let img_path := os_path_join SKY_IMAGE_DIR name in
    log (cloud_cover_from_file_called img_path) ;;
    _cloud_cover_from_file C img_path).

(** The state once the parser has been called on the first cell. *)
Definition parsed (s : state) (c0 : string) : state :=
  mkState (fs s) (written s) (calls s ++ [parse_called c0]).

(** The image a timestamp is looked up in. *)
Definition image_path (t : datetime) : string :=
  os_path_join SKY_IMAGE_DIR (_sky_image_filename t).

(** One feature lookup: the body of the loop over the offsets. *)
Definition lookup (C : imports) (dt : datetime) (minutes : Z)
  : M (option float) :=
  dt_i <- lift (add_minutes dt minutes) ;;
  name <- stage (filename_called dt_i) (Ret (_sky_image_filename dt_i)) ;;
  let img_path := os_path_join SKY_IMAGE_DIR name in
  log (cloud_cover_from_file_called img_path) ;;
  _cloud_cover_from_file C img_path.

(** A pipeline that raises nothing but instances of [Exception]. *)
Ltac only_exceptions :=
  let H := fresh "H" in
  intros ? ? H; destruct H; cbn in *;
  repeat match goal with
         | E : (if ?b then _ else _) = _ |- _ => destruct b
         end;
  first [discriminate
        | match goal with
          | E : Raise _ = Raise _ |- _ => injection E as <-; reflexivity
          end].

(** A pipeline that succeeds with cover 2.5, except on one image that
    fails to decode; a downloader that fetches nothing. *)
Definition sample_imports : imports :=
  {| image := unit; ratio := unit; cover := unit;
     load_and_trim := fun p =>
       if String.eqb p "sky_camera_images/2019-05-23-09-05-0.jpg"
       then Raise (OtherError "decode") else Ret tt;
     process_image_rb_ratio := fun _ => Ret tt;
     calculate_cloud_cover := fun _ => Ret tt;
     py_float := fun _ => Ret (S754_finite false 5 (-1));
     download_sky_camera_images := fun _ _ f => (Ret tt, f) |}.

Definition sample_collaborators : collaborators :=
  {| imported := sample_imports;
     pipeline_exceptions := ltac:(only_exceptions) |}.



(** A pipeline interrupted from the keyboard while it loads the
    image. *)
Definition interrupted_imports : imports :=
  {| image := unit; ratio := unit; cover := unit;
     load_and_trim := fun _ => Raise KeyboardInterrupt;
     process_image_rb_ratio := fun _ => Ret tt;
     calculate_cloud_cover := fun _ => Ret tt;
     py_float := fun _ => Ret (S754_finite false 5 (-1));
     download_sky_camera_images := fun _ _ f => (Ret tt, f) |}.

(** Imports whose downloader fetches the capture of 23 May 2019,
    09:00. *)
Definition fetching_imports : imports :=
  {| image := unit; ratio := unit; cover := unit;
     load_and_trim := fun _ => Ret tt;
     process_image_rb_ratio := fun _ => Ret tt;
     calculate_cloud_cover := fun _ => Ret tt;
     py_float := fun _ => Ret (S754_finite false 5 (-1));
     download_sky_camera_images := fun _ _ f =>
       (Ret tt,
        set_node (set_node f "sky_camera_images/2019-05-23-09-00-0.jpg"
                           RegularFile)
                 "sky_camera_images" (Directory ["2019-05-23-09-00-0.jpg"])) |}.

(** A world where the image directory holds one capture of 09:00 and
    one of 09:05, and nothing has been written or called yet. *)
Definition sample_state : state :=
  mkState (fun p =>
             if String.eqb p "sky_camera_images"
             then Directory ["2019-05-23-09-00-0.JPG"; "2019-05-23-09-05-0.jpg"]
             else if String.eqb p "sky_camera_images/2019-05-23-09-00-0.jpg"
             then RegularFile
             else if String.eqb p "sky_camera_images/2019-05-23-09-05-0.jpg"
             then RegularFile
             else Missing)
          [] [].

(** The same world with the feed file in place. *)
Definition feed_state : state :=
  mkState (set_node (fs sample_state) "Data/meteoblue_data.csv" RegularFile)
          [] [].

Definition may_23 : date := mkDate 2019 5 23.

(* ----------------------------------------------------------------- *)
(** ** Vocabulary of the further properties *)

(** The value the pipeline yields on [path]: the three stages and the
    final [float(...)], each fed the result of the one before. *)
Definition pipeline_result (C : imports) (path : string) : outcome float :=
  obind (load_and_trim C path) (fun trimmed =>
  obind (process_image_rb_ratio C trimmed) (fun rb =>
  obind (calculate_cloud_cover C rb) (fun c =>
  py_float C c))).

(** The pipeline stages that get called on [path], in order: each
    stage is called only if the one before returned. *)
Definition pipeline_calls (C : imports) (path : string) : list event :=
  load_and_trim_called path ::
  match load_and_trim C path with
  | Raise _ => []
  | Ret trimmed =>
      process_image_rb_ratio_called ::
      match process_image_rb_ratio C trimmed with
      | Raise _ => []
      | Ret _ => [calculate_cloud_cover_called]
      end
  end.

(** A call to the operating system or the downloader that only the
    Acquisition Trigger makes. *)
Definition acquisition_event (e : event) : bool :=
  match e with
  | os_makedirs_called _ | os_listdir_called _
  | download_sky_camera_images_called _ _ => true
  | _ => false
  end.

Definition is_download (e : event) : bool :=
  match e with
  | download_sky_camera_images_called _ _ => true
  | _ => false
  end.

(** The rows the merger keeps: metadata rows, and rows whose first
    cell parses to a date among [dates] at a time among [times]. *)
Definition row_kept (dates : list date) (row : list string) : bool :=
  match row with
  | [] => false
  | c0 :: _ =>
      str_in c0 metadata_labels
      || match _parse_meteoblue_datetime c0 with
         | Ret (Some dt) =>
             date_in (dt_date dt) dates && str_in (strftime dt "%H%M") times
         | _ => false
         end
  end.

(** [out] is [row] followed by exactly three cells. *)
Definition extended (out row : list string) : Prop :=
  exists c1 c2 c3, out = (row ++ [c1; c2; c3])%list.

(** The instant the parser reads from a string: as [encoded_instant],
    with the separator [T] in either case. *)
Definition accepted_instant (cell : string) : option datetime :=
  match digits_at cell 0 4, digits_at cell 4 2, digits_at cell 6 2,
        digits_at cell 9 2, digits_at cell 11 2 with
  | Some y, Some mo, Some d, Some h, Some mi =>
      let t := mkDateTime (mkDate y mo d) h mi in
      let sep := take 1 (drop 8 cell) in
      if (String.eqb sep "T" || String.eqb sep "t") && valid_datetime t
      then Some t else None
  | _, _, _, _, _ => None
  end.

(** The calls of one feature lookup, for the timestamp [t]. *)
Definition lookup_calls (C : imports) (f : filesystem) (t : datetime)
  : list event :=
  let p := os_path_join SKY_IMAGE_DIR (_sky_image_filename t) in
  filename_called t :: cloud_cover_from_file_called p
  :: os_path_exists_called p
  :: match f p with
     | Missing => []
     | _ => pipeline_calls C p
     end.

(** The Feature Computer's value for [path] in the file system [f]. *)
Definition cover_value (C : imports) (f : filesystem) (path : string)
  : option float :=
  match f path with
  | Missing => None
  | _ => match pipeline_result C path with
         | Ret x => Some x
         | Raise _ => None
         end
  end.

(** The timestamp [k] minutes into the hour of [dt]. *)
Definition at_minute (dt : datetime) (k : Z) : datetime :=
  mkDateTime (dt_date dt) (hour dt) k.

(** A character [int] can make sense of somewhere in a string: a
    digit, a sign, an underscore or white space. *)
Definition int_char (c : ascii) : bool :=
  is_digit c || is_space c || Ascii.eqb c "+" || Ascii.eqb c "-"
  || Ascii.eqb c "_".


(** [n] times the digit 7. *)
Fixpoint sevens (n : nat) : string :=
  match n with
  | O => EmptyString
  | S n' => String "7" (sevens n')
  end.

(** A world without image directory. *)
Definition bare_state : state := mkState (fun _ => Missing) [] [].

(** A world where the image directory's path names a file. *)
Definition blocked_state : state :=
  mkState (fun p => if String.eqb p "sky_camera_images" then RegularFile
                    else Missing) [] [].

(* ================================================================= *)
(** * Part II.  Properties *)
(* ================================================================= *)

(* ----------------------------------------------------------------- *)
(** ** The Record Merger on empty and metadata rows *)

Section MergerSimpleRows.

Context (C : collaborators).

(** C10.  An empty feed row is skipped: the merger returns normally
    and leaves the output table, the file system and the record of
    calls as they were.  Indexing the first cell of an empty row
    would raise [IndexError]; the merger does not get there. *)
Theorem empty_row_skipped (dates : list date) (s : state) :
  first_cell [] = Raise IndexError
  /\ merge_row C dates [] s = (Ret tt, s)
  /\ for_each [[]; []] (merge_row C dates) s = (Ret tt, s).
Proof.
  repeat split.
Qed.

(** C7.  A row whose first cell is [variable], [unit] or [level] is
    written with its own cells followed by the three column labels;
    nothing else happens: no parser, locator or feature-computer
    call is recorded and the file system is untouched. *)
Theorem metadata_row_passthrough
    (dates : list date) (c0 : string) (rest : list string) (s : state)
    (Hlabel : c0 = "variable" \/ c0 = "unit" \/ c0 = "level") :
  merge_row C dates (c0 :: rest) s
  = (Ret tt,
     mkState (fs s)
             (written s ++ [(c0 :: rest)
                            ++ ["cloud_cover_t"; "cloud_cover_t+5m";
                                "cloud_cover_t+10m"]])%list
             (calls s)).
Proof.
  destruct Hlabel as [-> | [-> | ->]]; reflexivity.
Qed.

End MergerSimpleRows.

(* ----------------------------------------------------------------- *)
(** ** The Feature Computer *)

Section FeatureComputerImports.

Context (C : imports).

Lemma feature_missing (path : string) (s : state) :
  fs s path = Missing ->
  _cloud_cover_from_file C path s
  = (Ret None,
     mkState (fs s) (written s) (calls s ++ [os_path_exists_called path])).
Proof.
  intros Hm.
  unfold _cloud_cover_from_file, os_path_exists, try_catch, stage, bind,
    log, lift, ret; cbn.
  rewrite Hm. reflexivity.
Qed.

(** The Feature Computer in one equation: the result, and the calls
    in the order they are made.  What a stage raises is turned into
    an absent value when it is an instance of [Exception], and goes
    on to the caller when it is not. *)
Lemma feature_result (path : string) (s : state) :
  _cloud_cover_from_file C path s
  = (match fs s path with
     | Missing => Ret None
     | _ => match pipeline_result C path with
            | Ret x => Ret (Some x)
            | Raise e => if is_Exception e then Ret None else Raise e
            end
     end,
     mkState (fs s) (written s)
             (calls s ++ os_path_exists_called path
                      :: match fs s path with
                         | Missing => []
                         | _ => pipeline_calls C path
                         end)).
Proof.
  unfold _cloud_cover_from_file, os_path_exists, try_catch, stage, bind,
    log, lift, ret, pipeline_result, pipeline_calls; cbn.
  destruct (fs s path); cbn; try reflexivity;
    (destruct (load_and_trim C path) as [t|e]; cbn;
     [|destruct (is_Exception e); cbn; rewrite <- ?app_assoc; reflexivity]);
    (destruct (process_image_rb_ratio C t) as [r|e]; cbn;
     [|destruct (is_Exception e); cbn; rewrite <- ?app_assoc; reflexivity]);
    (destruct (calculate_cloud_cover C r) as [c|e]; cbn;
     [|destruct (is_Exception e); cbn; rewrite <- ?app_assoc; reflexivity]);
    (destruct (py_float C c) as [x|e]; cbn;
     [|destruct (is_Exception e); cbn]);
    rewrite <- ?app_assoc; reflexivity.
Qed.

Lemma pipeline_result_raises (path : string) (e : exn) :
  pipeline_result C path = Raise e <-> pipeline_raises C path e.
Proof.
  unfold pipeline_result. split.
  - destruct (load_and_trim C path) as [t|e1] eqn:H1; cbn;
      [|intros [= <-]; apply load_raises; exact H1].
    destruct (process_image_rb_ratio C t) as [r|e2] eqn:H2; cbn;
      [|intros [= <-]; eapply ratio_raises; eassumption].
    destruct (calculate_cloud_cover C r) as [c|e3] eqn:H3; cbn;
      [|intros [= <-]; eapply cover_raises; eassumption].
    intros H4. eapply float_raises; eassumption.
  - intros [e' H1 | t e' H1 H2 | t r e' H1 H2 H3 | t r c e' H1 H2 H3 H4].
    + rewrite H1. reflexivity.
    + rewrite H1. cbn. rewrite H2. reflexivity.
    + rewrite H1. cbn. rewrite H2. cbn. rewrite H3. reflexivity.
    + rewrite H1. cbn. rewrite H2. cbn. rewrite H3. cbn. exact H4.
Qed.

(** C2, as the code has it.  For a path that does not exist the
    Feature Computer returns the absent value, and the existence test
    is the only call it makes: no stage of the pipeline runs.  When a
    stage raises an instance of [Exception], the exception is caught
    and the value is absent.  When a stage raises anything else (an
    exit signal), the Feature Computer raises it in turn; nothing but
    such a signal of a stage ever leaves it.  In every case the file
    system and the output table are left as they were. *)
Theorem feature_computer_catches_exceptions (path : string) (s : state) :
  (fs s path = Missing ->
   _cloud_cover_from_file C path s
   = (Ret None,
      mkState (fs s) (written s) (calls s ++ [os_path_exists_called path])))
  /\ (forall e, pipeline_raises C path e -> is_Exception e = true ->
                fst (_cloud_cover_from_file C path s) = Ret None)
  /\ (forall e, pipeline_raises C path e -> is_Exception e = false ->
                fs s path <> Missing ->
                fst (_cloud_cover_from_file C path s) = Raise e)
  /\ (forall e, fst (_cloud_cover_from_file C path s) = Raise e ->
                is_Exception e = false /\ pipeline_raises C path e)
  /\ fs (snd (_cloud_cover_from_file C path s)) = fs s
  /\ written (snd (_cloud_cover_from_file C path s)) = written s.
Proof.
  split; [apply feature_missing|].
  rewrite feature_result. cbn [fst snd fs written].
  split; [|split; [|split; [|split; reflexivity]]].
  - intros e He Hexc. apply pipeline_result_raises in He. rewrite He, Hexc.
    destruct (fs s path); reflexivity.
  - intros e He Hexc Hp. apply pipeline_result_raises in He.
    rewrite He, Hexc. destruct (fs s path); [contradiction| |]; reflexivity.
  - intros e.
    assert (H : match pipeline_result C path with
                | Ret x => Ret (Some x)
                | Raise e0 => if is_Exception e0 then Ret None else Raise e0
                end = Raise e ->
                is_Exception e = false /\ pipeline_raises C path e).
    { destruct (pipeline_result C path) as [x|e0] eqn:Hr; [discriminate|].
      destruct (is_Exception e0) eqn:Hexc; [discriminate|].
      intros [= <-]. split; [exact Hexc|].
      apply pipeline_result_raises. exact Hr. }
    destruct (fs s path); [discriminate | exact H | exact H].
Qed.

End FeatureComputerImports.

(** That every exception of a stage is caught fails for an exit
    signal: with the image in place and a pipeline interrupted from
    the keyboard, the Feature Computer raises [KeyboardInterrupt]. *)
Lemma feature_computer_raises_keyboard_interrupt :
  fs sample_state "sky_camera_images/2019-05-23-09-00-0.jpg" = RegularFile
  /\ pipeline_raises interrupted_imports
       "sky_camera_images/2019-05-23-09-00-0.jpg" KeyboardInterrupt
  /\ _cloud_cover_from_file interrupted_imports
       "sky_camera_images/2019-05-23-09-00-0.jpg" sample_state
     = (Raise KeyboardInterrupt,
        mkState (fs sample_state) []
                [os_path_exists_called
                   "sky_camera_images/2019-05-23-09-00-0.jpg";
                 load_and_trim_called
                   "sky_camera_images/2019-05-23-09-00-0.jpg"])
  /\ ~ (exists v s',
          _cloud_cover_from_file interrupted_imports
            "sky_camera_images/2019-05-23-09-00-0.jpg" sample_state
          = (Ret v, s')).
Proof.
  split; [reflexivity|]. split; [apply load_raises; reflexivity|].
  split; [reflexivity|].
  intros (v & s' & H). discriminate H.
Qed.

Section FeatureComputer.

Context (C : collaborators).

(** With collaborators, whose pipeline raises instances of
    [Exception] only, every failure of a stage is an absent value. *)
Lemma feature_run (path : string) (s : state) :
  _cloud_cover_from_file C path s
  = (Ret (match fs s path with
          | Missing => None
          | _ => match pipeline_result C path with
                 | Ret x => Some x
                 | Raise _ => None
                 end
          end),
     mkState (fs s) (written s)
             (calls s ++ os_path_exists_called path
                      :: match fs s path with
                         | Missing => []
                         | _ => pipeline_calls C path
                         end)).
Proof.
  rewrite feature_result. f_equal.
  destruct (pipeline_result C path) as [x|e] eqn:Hr.
  - destruct (fs s path); reflexivity.
  - apply pipeline_result_raises in Hr.
    rewrite (pipeline_exceptions C path e Hr).
    destruct (fs s path); reflexivity.
Qed.


Lemma feature_failure_absent (path : string) (s : state) (e : exn) :
  pipeline_raises C path e ->
  fst (_cloud_cover_from_file C path s) = Ret None.
Proof.
  intros H. rewrite feature_run. apply pipeline_result_raises in H.
  rewrite H. destruct (fs s path); reflexivity.
Qed.

End FeatureComputer.

(* ----------------------------------------------------------------- *)
(** ** The Acquisition Trigger *)

Section AcquisitionTrigger.

Context (C : imports).

Ltac run_trigger :=
  unfold _ensure_images_downloaded, os_makedirs, os_listdir, download,
    try_catch, bind, log, lift, ret; cbn.

Lemma trigger_populated (start_d end_d : date) (s : state) (names : list string) :
  fs s SKY_IMAGE_DIR = Directory names ->
  existsb is_image_name names = true ->
  _ensure_images_downloaded C start_d end_d s
  = (Ret tt,
     mkState (fs s) (written s)
             (calls s ++ [os_makedirs_called SKY_IMAGE_DIR;
                          os_listdir_called SKY_IMAGE_DIR])).
Proof.
  intros Hd Hany. run_trigger. rewrite Hd. cbn. rewrite Hd. cbn.
  rewrite Hany. cbn. rewrite <- app_assoc. reflexivity.
Qed.

(** The three ways a run of the trigger can go. *)
Lemma trigger_cases (start_d end_d : date) (s : state) :
  (fs s SKY_IMAGE_DIR = RegularFile
   /\ _ensure_images_downloaded C start_d end_d s
      = (Raise FileExistsError,
         mkState (fs s) (written s)
                 (calls s ++ [os_makedirs_called SKY_IMAGE_DIR])))
  \/ (has_image (fs s) = true
      /\ _ensure_images_downloaded C start_d end_d s
         = (Ret tt,
            mkState (fs s) (written s)
                    (calls s ++ [os_makedirs_called SKY_IMAGE_DIR;
                                 os_listdir_called SKY_IMAGE_DIR])))
  \/ (fs s SKY_IMAGE_DIR <> RegularFile
      /\ exists f,
           is_directory (f SKY_IMAGE_DIR) = true
           /\ (forall p, p <> SKY_IMAGE_DIR -> f p = fs s p)
           /\ _ensure_images_downloaded C start_d end_d s
              = (fst (download_sky_camera_images C (isoformat start_d)
                        (isoformat end_d) f),
                 mkState (snd (download_sky_camera_images C
                                 (isoformat start_d) (isoformat end_d) f))
                         (written s)
                         (calls s ++ [os_makedirs_called SKY_IMAGE_DIR;
                                      os_listdir_called SKY_IMAGE_DIR;
                                      download_sky_camera_images_called
                                        (isoformat start_d)
                                        (isoformat end_d)]))).
Proof.
  unfold has_image. fold is_image_name.
  change (fun name => endswith (lower name) ".jpg") with is_image_name.
  destruct (fs s SKY_IMAGE_DIR) as [| |names] eqn:Hd.
  - right. right. split; [discriminate|].
    exists (set_node (fs s) SKY_IMAGE_DIR (Directory [])).
    split; [reflexivity|]. split.
    + intros p Hp. unfold set_node. apply String.eqb_neq in Hp.
      rewrite Hp. reflexivity.
    + run_trigger. rewrite Hd. cbn. unfold set_node at 1. cbn.
      destruct (download_sky_camera_images C _ _ _) as [r f]. cbn.
      rewrite <- !app_assoc. reflexivity.
  - left. split; [reflexivity|]. run_trigger. rewrite Hd. reflexivity.
  - destruct (existsb is_image_name names) eqn:Hany.
    + right. left. split; [reflexivity|].
      apply (trigger_populated _ _ _ names Hd Hany).
    + right. right. split; [discriminate|].
      exists (fs s). split; [rewrite Hd; reflexivity|].
      split; [reflexivity|].
      run_trigger. rewrite Hd. cbn. rewrite Hd. cbn. rewrite Hany. cbn.
      destruct (download_sky_camera_images C _ _ _) as [r f]. cbn.
      rewrite <- !app_assoc. reflexivity.
Qed.

Lemma no_download_app (l : list event) (e1 e2 : event) :
  no_download l ->
  (forall a b, e1 <> download_sky_camera_images_called a b) ->
  (forall a b, e2 <> download_sky_camera_images_called a b) ->
  no_download (l ++ [e1; e2]).
Proof.
  intros Hl H1 H2 a b Hin. apply in_app_or in Hin.
  destruct Hin as [Hin | [Hin | [Hin | []]]].
  - exact (Hl a b Hin).
  - exact (H1 a b Hin).
  - exact (H2 a b Hin).
Qed.

(** Whenever the trigger returns, [os.makedirs] has put the image
    directory in place, and the file system it leaves is that one,
    or what the downloader made of it. *)
Lemma trigger_ensures_dir (start_d end_d : date) (s s' : state) :
  _ensure_images_downloaded C start_d end_d s = (Ret tt, s') ->
  (exists names, with_image_dir (fs s) SKY_IMAGE_DIR = Directory names)
  /\ (fs s' = with_image_dir (fs s)
      \/ fs s' = snd (download_sky_camera_images C (isoformat start_d)
                        (isoformat end_d) (with_image_dir (fs s)))).
Proof.
  unfold with_image_dir. run_trigger.
  destruct (fs s SKY_IMAGE_DIR) as [| |names] eqn:Hd; cbn.
  - unfold set_node at 1. cbn.
    destruct (download_sky_camera_images C _ _ _) as [r f] eqn:Hdl. cbn.
    intros H. inversion H; subst. cbn. split.
    + exists []. reflexivity.
    + right. reflexivity.
  - discriminate.
  - rewrite Hd. cbn. destruct (existsb is_image_name names); cbn.
    + intros H. inversion H; subst. cbn. split; eauto.
    + destruct (download_sky_camera_images C _ _ _) as [r f] eqn:Hdl. cbn.
      intros H. inversion H; subst. cbn. split; eauto.
Qed.

Lemma has_image_directory (f : filesystem) :
  has_image f = true -> is_directory (f SKY_IMAGE_DIR) = true.
Proof.
  unfold has_image. destruct (f SKY_IMAGE_DIR); [discriminate..|reflexivity].
Qed.

(** C8.  With at least one image name in the image directory (a name
    ending in [.jpg], in any case of letters) the trigger calls
    [os.makedirs] and [os.listdir] and returns: the downloader is not
    called and the file system is as it was.  Hence, with a
    downloader that keeps its contract and leaves captures in the
    directory, a first run that returns leaves a directory with an
    image, and a second run makes those two calls only.  In every
    case the first call of the trigger is [os.makedirs] on the image
    directory.  It raises if the path names a regular file;
    otherwise the directory is in place from then on: the downloader,
    if it is called, is called once, with the two dates in
    [YYYY-MM-DD] form, on a file system in which the directory exists
    and nothing else has changed, and if it does not remove the
    directory, the directory exists whenever the trigger returns. *)
Theorem trigger_skips_populated_dir (start_d end_d : date) :
  (forall s,
      has_image (fs s) = true ->
      _ensure_images_downloaded C start_d end_d s
      = (Ret tt,
         mkState (fs s) (written s)
                 (calls s ++ [os_makedirs_called SKY_IMAGE_DIR;
                              os_listdir_called SKY_IMAGE_DIR])))
  /\ (downloader_populates C ->
      forall start1 end1 s0 s1,
        _ensure_images_downloaded C start1 end1 s0 = (Ret tt, s1) ->
        has_image (fs s1) = true
        /\ _ensure_images_downloaded C start_d end_d s1
           = (Ret tt,
              mkState (fs s1) (written s1)
                      (calls s1 ++ [os_makedirs_called SKY_IMAGE_DIR;
                                    os_listdir_called SKY_IMAGE_DIR])))
  /\ (forall s, exists l,
         calls (snd (_ensure_images_downloaded C start_d end_d s))
         = (calls s ++ os_makedirs_called SKY_IMAGE_DIR :: l)%list)
  /\ (forall s,
         fs s SKY_IMAGE_DIR = RegularFile ->
         fst (_ensure_images_downloaded C start_d end_d s)
         = Raise FileExistsError)
  /\ (forall s,
         fs s SKY_IMAGE_DIR <> RegularFile -> has_image (fs s) = false ->
         exists f,
           is_directory (f SKY_IMAGE_DIR) = true
           /\ (forall p, p <> SKY_IMAGE_DIR -> f p = fs s p)
           /\ _ensure_images_downloaded C start_d end_d s
              = (fst (download_sky_camera_images C (isoformat start_d)
                        (isoformat end_d) f),
                 mkState (snd (download_sky_camera_images C
                                 (isoformat start_d) (isoformat end_d) f))
                         (written s)
                         (calls s ++ [os_makedirs_called SKY_IMAGE_DIR;
                                      os_listdir_called SKY_IMAGE_DIR;
                                      download_sky_camera_images_called
                                        (isoformat start_d)
                                        (isoformat end_d)])))
  /\ (downloader_keeps_directory C ->
      forall s s',
        _ensure_images_downloaded C start_d end_d s = (Ret tt, s') ->
        is_directory (fs s' SKY_IMAGE_DIR) = true).
Proof.
  assert (Hskip : forall a b s,
             has_image (fs s) = true ->
             _ensure_images_downloaded C a b s
             = (Ret tt,
                mkState (fs s) (written s)
                        (calls s ++ [os_makedirs_called SKY_IMAGE_DIR;
                                     os_listdir_called SKY_IMAGE_DIR]))).
  { intros a b s Himg.
    destruct (trigger_cases a b s)
      as [[Hf _] | [[_ Hrun] | (_ & f & _ & _ & Hrun)]].
    - unfold has_image in Himg. rewrite Hf in Himg. discriminate.
    - exact Hrun.
    - exfalso. revert Himg Hrun. unfold has_image. fold is_image_name.
      change (fun name => endswith (lower name) ".jpg") with is_image_name.
      unfold _ensure_images_downloaded, os_makedirs, os_listdir, download,
        try_catch, bind, log, lift, ret; cbn.
      destruct (fs s SKY_IMAGE_DIR) as [| |names] eqn:Hd; [discriminate..|].
      intros Himg. cbn. rewrite Hd. cbn. rewrite Himg. cbn.
      destruct (download_sky_camera_images C _ _ f) as [r f'].
      cbn. intros H. injection H as _ _ H.
      apply (f_equal (@length event)) in H. rewrite !length_app in H.
      cbn in H. lia. }
  split; [intros s; apply Hskip|].
  split; [|split; [|split; [|split]]].
  - intros Hcontract start1 end1 s0 s1 Hfirst.
    assert (Himg : has_image (fs s1) = true).
    { destruct (trigger_cases start1 end1 s0)
        as [[_ Hrun] | [[Himg Hrun] | (_ & f & _ & _ & Hrun)]];
        rewrite Hrun in Hfirst.
      - discriminate.
      - injection Hfirst as <-. exact Himg.
      - destruct (download_sky_camera_images C _ _ f) as [r f'] eqn:Hdl.
        cbn [fst snd] in Hfirst. injection Hfirst as -> <-.
        cbn [fs]. exact (Hcontract _ _ _ _ Hdl). }
    split; [exact Himg | apply Hskip; exact Himg].
  - intros s.
    destruct (trigger_cases start_d end_d s)
      as [[_ Hrun] | [[_ Hrun] | (_ & f & _ & _ & Hrun)]];
      rewrite Hrun; cbn [snd calls]; eexists; reflexivity.
  - intros s Hf.
    destruct (trigger_cases start_d end_d s)
      as [[_ Hrun] | [[Himg _] | [Hnf _]]].
    + rewrite Hrun. reflexivity.
    + unfold has_image in Himg. rewrite Hf in Himg. discriminate.
    + contradiction.
  - intros s Hnf Hno.
    destruct (trigger_cases start_d end_d s)
      as [[Hf _] | [[Himg _] | (_ & f & Hf & Hsame & Hrun)]].
    + contradiction.
    + rewrite Hno in Himg. discriminate.
    + exists f. split; [exact Hf|]. split; [exact Hsame | exact Hrun].
  - intros Hkeeps s s' Hrun.
    destruct (trigger_cases start_d end_d s)
      as [[_ Hr] | [[Himg Hr] | (_ & f & Hf & _ & Hr)]];
      rewrite Hr in Hrun.
    + discriminate.
    + injection Hrun as <-. cbn [fs]. apply has_image_directory. exact Himg.
    + destruct (download_sky_camera_images C _ _ f) as [r f'] eqn:Hdl.
      cbn [fst snd] in Hrun. injection Hrun as -> <-. cbn [fs].
      exact (Hkeeps _ _ _ _ Hf Hdl).
Qed.

End AcquisitionTrigger.

(* ----------------------------------------------------------------- *)
(** ** Digits *)

Lemma small_cases (k : Z) :
  0 <= k <= 9 ->
  k = 0 \/ k = 1 \/ k = 2 \/ k = 3 \/ k = 4 \/ k = 5 \/ k = 6 \/ k = 7
  \/ k = 8 \/ k = 9.
Proof. lia. Qed.

Ltac by_digit k H :=
  let D := fresh "D" in
  pose proof (small_cases k H) as D;
  repeat (destruct D as [D | D]; [subst k; try reflexivity|]);
  try (subst k; reflexivity).

Lemma is_digit_digit_char (k : Z) : 0 <= k <= 9 -> is_digit (digit_char k) = true.
Proof. intros H. by_digit k H. Qed.

Lemma digit_val_digit_char (k : Z) :
  0 <= k <= 9 -> digit_val (digit_char k) = Some k.
Proof. intros H. by_digit k H. Qed.

Lemma is_space_digit_char (k : Z) :
  0 <= k <= 9 -> is_space (digit_char k) = false.
Proof. intros H. by_digit k H. Qed.

Lemma digit_char_not_sign (k : Z) :
  0 <= k <= 9 ->
  Ascii.eqb (digit_char k) "-" = false /\ Ascii.eqb (digit_char k) "+" = false.
Proof. intros H. split; by_digit k H. Qed.

Lemma mod10_digit (n : Z) : 0 <= n mod 10 <= 9.
Proof. pose proof (Z.mod_pos_bound n 10). lia. Qed.

Lemma all_chars_app (p : ascii -> bool) (s t : string) :
  all_chars p (s ++ t) = all_chars p s && all_chars p t.
Proof.
  induction s as [|c s IH]; cbn; [reflexivity|].
  rewrite IH. apply andb_assoc.
Qed.

Lemma length_app (s t : string) :
  String.length (s ++ t) = (String.length s + String.length t)%nat.
Proof. induction s as [|c s IH]; cbn; congruence. Qed.

Lemma fixed_digits_length (w : nat) (n : Z) :
  String.length (fixed_digits w n) = w.
Proof.
  revert n. induction w as [|w IH]; intros n; cbn; [reflexivity|].
  rewrite length_app, IH. cbn. lia.
Qed.

Lemma fixed_digits_all_digits (w : nat) (n : Z) :
  all_chars is_digit (fixed_digits w n) = true.
Proof.
  revert n. induction w as [|w IH]; intros n; cbn; [reflexivity|].
  rewrite all_chars_app, IH. cbn.
  rewrite is_digit_digit_char by apply mod10_digit. reflexivity.
Qed.

(** The number a string of digits denotes. *)
Lemma int_digits_app_digit (s : string) (k acc : Z) (prev : bool) (v : Z) :
  0 <= k <= 9 ->
  int_digits acc prev s = Some v ->
  int_digits acc prev (s ++ String (digit_char k) EmptyString)
  = Some (10 * v + k).
Proof.
  intros Hk. revert acc prev v.
  induction s as [|c s IH]; intros acc prev v; cbn.
  - rewrite digit_val_digit_char by exact Hk.
    destruct prev; [|discriminate]. intros [= <-]. reflexivity.
  - destruct (digit_val c) as [d|]; [apply IH|].
    destruct (Ascii.eqb c "_" && prev); [apply IH|discriminate].
Qed.

Lemma int_digits_one (k acc : Z) (prev : bool) :
  0 <= k <= 9 ->
  int_digits acc prev (String (digit_char k) EmptyString) = Some (10 * acc + k).
Proof.
  intros Hk. cbn. rewrite digit_val_digit_char by exact Hk. reflexivity.
Qed.

Lemma int_digits_fixed (w : nat) (n : Z) :
  0 <= n ->
  int_digits 0 false (fixed_digits (S w) n) = Some (n mod 10 ^ Z.of_nat (S w)).
Proof.
  revert n. induction w as [|w IH]; intros n Hn.
  - cbn [fixed_digits append]. rewrite int_digits_one by apply mod10_digit.
    reflexivity.
  - change (fixed_digits (S (S w)) n)
      with (fixed_digits (S w) (n / 10) ++ String (digit_char (n mod 10)) EmptyString).
    rewrite (int_digits_app_digit _ _ _ _ ((n / 10) mod 10 ^ Z.of_nat (S w))).
    + f_equal.
      replace (Z.of_nat (S (S w))) with (1 + Z.of_nat (S w)) by lia.
      rewrite Z.pow_add_r by lia. change (10 ^ 1) with 10.
      assert (Hp : 0 < 10 ^ Z.of_nat (S w)) by (apply Z.pow_pos_nonneg; lia).
      rewrite (Z.rem_mul_r n 10 (10 ^ Z.of_nat (S w))) by lia. lia.
    + apply mod10_digit.
    + apply IH. apply Z.div_pos; lia.
Qed.

Lemma is_digit_code (c : ascii) : is_digit c = true -> 48 <= code c <= 57.
Proof.
  unfold is_digit, in_range. change (code "0") with 48. change (code "9") with 57.
  intros H. apply andb_true_iff in H. destruct H as [H1 H2].
  apply Z.leb_le in H1, H2. lia.
Qed.

Lemma is_digit_not_space (c : ascii) : is_digit c = true -> is_space c = false.
Proof.
  intros H. apply is_digit_code in H. unfold is_space. cbv zeta.
  repeat match goal with
         | |- context [?a <=? ?b] => destruct (Z.leb_spec a b)
         | |- context [?a =? ?b] => destruct (Z.eqb_spec a b)
         end; cbn; trivial; lia.
Qed.

Lemma is_digit_not_char (c x : ascii) :
  is_digit c = true -> (code x < 48 \/ 57 < code x) -> Ascii.eqb c x = false.
Proof.
  intros H Hx. apply is_digit_code in H. apply Ascii.eqb_neq.
  intros ->. lia.
Qed.

Lemma lstrip_digits (s : string) : all_chars is_digit s = true -> lstrip s = s.
Proof.
  destruct s as [|c s]; cbn; [reflexivity|].
  intros H. apply andb_true_iff in H. destruct H as [H _].
  rewrite (is_digit_not_space c H). reflexivity.
Qed.

Lemma all_chars_srev_onto (p : ascii -> bool) (s acc : string) :
  all_chars p (srev_onto s acc) = all_chars p s && all_chars p acc.
Proof.
  revert acc. induction s as [|c s IH]; intros acc; cbn; [reflexivity|].
  rewrite IH. cbn. destruct (p c), (all_chars p s), (all_chars p acc); reflexivity.
Qed.

Lemma append_empty_r (s : string) : s ++ "" = s.
Proof. induction s as [|c s IH]; cbn; congruence. Qed.

Lemma srev_onto_twice (s a b : string) :
  srev_onto (srev_onto s a) b = srev_onto a (s ++ b).
Proof.
  revert a b. induction s as [|c s IH]; intros a b; cbn; [reflexivity|].
  rewrite IH. reflexivity.
Qed.

Lemma srev_involutive (s : string) : srev (srev s) = s.
Proof.
  unfold srev. rewrite srev_onto_twice. cbn. apply append_empty_r.
Qed.

Lemma strip_digits (s : string) : all_chars is_digit s = true -> strip s = s.
Proof.
  intros H. unfold strip, rstrip. rewrite (lstrip_digits s H).
  rewrite lstrip_digits.
  - apply srev_involutive.
  - unfold srev. rewrite all_chars_srev_onto, H. reflexivity.
Qed.

Lemma digit_count_bounds (s : string) : 0 <= digit_count s <= len s.
Proof.
  unfold len. induction s as [|c s IH]; cbn [digit_count String.length].
  - cbn. lia.
  - destruct (is_digit c); lia.
Qed.

Lemma within_digit_limit (s : string) :
  len s <= 4300 -> (MAX_STR_DIGITS <? digit_count s) = false.
Proof.
  intros H. pose proof (digit_count_bounds s). unfold MAX_STR_DIGITS.
  apply Z.ltb_ge. lia.
Qed.

(** On a string of digits, no longer than the limit, [int] is the
    digit reader. *)
Lemma py_int_digits (s : string) :
  all_chars is_digit s = true ->
  len s <= 4300 ->
  py_int s = match int_digits 0 false s with
             | Some n => Ret n
             | None => Raise ValueError
             end.
Proof.
  intros H L. unfold py_int. rewrite (strip_digits s H).
  destruct s as [|c s]; [reflexivity|].
  pose proof H as H'.
  cbn in H. apply andb_true_iff in H. destruct H as [Hc _].
  rewrite (is_digit_not_char c "-" Hc) by (cbn; lia).
  rewrite (is_digit_not_char c "+" Hc) by (cbn; lia).
  rewrite (within_digit_limit _ L). reflexivity.
Qed.

Lemma py_int_fixed_digits (w : nat) (n : Z) :
  0 <= n < 10 ^ Z.of_nat (S w) -> Z.of_nat (S w) <= 4300 ->
  py_int (fixed_digits (S w) n) = Ret n.
Proof.
  intros Hn L.
  rewrite py_int_digits;
    [|apply fixed_digits_all_digits|unfold len; rewrite fixed_digits_length; exact L].
  rewrite int_digits_fixed by lia. rewrite Z.mod_small by exact Hn. reflexivity.
Qed.

(* ----------------------------------------------------------------- *)
(** ** The Artifact Locator *)

Lemma days_in_month_le_31 (y m : Z) : days_in_month y m <= 31.
Proof.
  unfold days_in_month.
  destruct ((m =? 2) && is_leap y); [lia|].
  destruct (Z.to_nat m) as [|[|[|[|[|[|[|[|[|[|[|[|[|[|k]]]]]]]]]]]]]];
    cbn; try lia; destruct k; cbn; lia.
Qed.

Lemma valid_date_bounds (d : date) :
  valid_date d = true ->
  1 <= year d <= 9999 /\ 1 <= month d <= 12
  /\ 1 <= day d <= days_in_month (year d) (month d).
Proof.
  unfold valid_date, MINYEAR, MAXYEAR. intros H.
  repeat (apply andb_true_iff in H; destruct H as [H ?]).
  repeat match goal with H : (_ <=? _) = true |- _ => apply Z.leb_le in H end.
  lia.
Qed.

Lemma valid_datetime_bounds (t : datetime) :
  valid_datetime t = true ->
  1 <= year (dt_date t) <= 9999 /\ 1 <= month (dt_date t) <= 12
  /\ 1 <= day (dt_date t) <= 31 /\ 0 <= hour t <= 23 /\ 0 <= minute t <= 59.
Proof.
  unfold valid_datetime, valid_time. intros H.
  apply andb_true_iff in H. destruct H as [Hd H].
  apply valid_date_bounds in Hd.
  pose proof (days_in_month_le_31 (year (dt_date t)) (month (dt_date t))).
  repeat (apply andb_true_iff in H; destruct H as [H ?]).
  repeat match goal with H : (_ <=? _) = true |- _ => apply Z.leb_le in H end.
  lia.
Qed.

Lemma append_assoc (a b c : string) : (a ++ b) ++ c = a ++ (b ++ c).
Proof. induction a as [|x a IH]; cbn; congruence. Qed.

Lemma string_of_uint_digits (u : uint) :
  all_chars is_digit (NilEmpty.string_of_uint u) = true.
Proof. induction u; cbn; auto. Qed.

Lemma decimal_digits (n : Z) :
  all_chars is_digit (decimal n) = true /\ decimal n <> EmptyString.
Proof.
  unfold decimal, NilZero.string_of_uint.
  destruct (N.to_uint (Z.to_N n)) as [|u|u|u|u|u|u|u|u|u|u] eqn:E;
    (split; [try reflexivity; apply (string_of_uint_digits (_ u))
            | cbn; discriminate]).
Qed.


Lemma In_upto (k : nat) (z : Z) : 0 <= z < Z.of_nat k -> In z (upto k).
Proof.
  intros H. unfold upto. apply in_map_iff. exists (Z.to_nat z).
  split; [lia|]. apply in_seq. lia.
Qed.

(** The decimal text of a number of up to four digits [a b c d]:
    the digits without the leading zeros. *)
Lemma decimal_table :
  forallb (fun a => forallb (fun b => forallb (fun c => forallb (fun d =>
    String.eqb (decimal (((a * 10 + b) * 10 + c) * 10 + d))
               (let t1 := String (digit_char d) EmptyString in
                let t2 := String (digit_char c) t1 in
                let t3 := String (digit_char b) t2 in
                if a =? 0 then if b =? 0 then if c =? 0 then t1 else t2
                               else t3
                else String (digit_char a) t3))
    (upto 10)) (upto 10)) (upto 10)) (upto 10) = true.
Proof. vm_compute. reflexivity. Qed.

(** The text of a year: it reads back as the year, and it is the
    four-digit text from the year 1000 on and shorter before. *)
Lemma year_text (y : Z) :
  0 <= y <= 9999 ->
  py_int (decimal y) = Ret y
  /\ (1000 <= y -> decimal y = fixed_digits 4 y)
  /\ (y < 1000 -> (String.length (decimal y) < 4)%nat).
Proof.
  intros Hy.
  set (a := (y / 10 / 10 / 10) mod 10). set (b := (y / 10 / 10) mod 10).
  set (c := (y / 10) mod 10). set (d := y mod 10).
  assert (Ha : 0 <= a < Z.of_nat 10) by (apply Z.mod_pos_bound; lia).
  assert (Hb : 0 <= b < Z.of_nat 10) by (apply Z.mod_pos_bound; lia).
  assert (Hc : 0 <= c < Z.of_nat 10) by (apply Z.mod_pos_bound; lia).
  assert (Hd : 0 <= d < Z.of_nat 10) by (apply Z.mod_pos_bound; lia).
  assert (E : ((a * 10 + b) * 10 + c) * 10 + d = y)
    by (subst a b c d; Z.div_mod_to_equations; lia).
  pose proof decimal_table as T.
  rewrite forallb_forall in T. specialize (T a (In_upto 10 a Ha)).
  rewrite forallb_forall in T. specialize (T b (In_upto 10 b Hb)).
  rewrite forallb_forall in T. specialize (T c (In_upto 10 c Hc)).
  rewrite forallb_forall in T. specialize (T d (In_upto 10 d Hd)).
  apply String.eqb_eq in T. rewrite E in T. cbv zeta in T.
  destruct (Z.eqb_spec a 0) as [A0|A0];
    [destruct (Z.eqb_spec b 0) as [B0|B0];
     [destruct (Z.eqb_spec c 0) as [C0|C0]|]|].
  - assert (Hw : decimal y = fixed_digits 1 y) by (rewrite T; reflexivity).
    rewrite Hw. split; [apply py_int_fixed_digits; cbn; lia|].
    split; [lia | intros _; cbn; lia].
  - assert (Hw : decimal y = fixed_digits 2 y) by (rewrite T; reflexivity).
    rewrite Hw. split; [apply py_int_fixed_digits; cbn; lia|].
    split; [lia | intros _; cbn; lia].
  - assert (Hw : decimal y = fixed_digits 3 y) by (rewrite T; reflexivity).
    rewrite Hw. split; [apply py_int_fixed_digits; cbn; lia|].
    split; [lia | intros _; rewrite fixed_digits_length; lia].
  - assert (Hw : decimal y = fixed_digits 4 y) by (rewrite T; reflexivity).
    rewrite Hw. split; [apply py_int_fixed_digits; cbn; lia|].
    split; [reflexivity | lia].
Qed.



(** The filename, field by field. *)
Lemma filename_text (t : datetime) :
  _sky_image_filename t
  = decimal (year (dt_date t)) ++ "-"
    ++ fixed_digits 2 (month (dt_date t)) ++ "-"
    ++ fixed_digits 2 (day (dt_date t)) ++ "-"
    ++ fixed_digits 2 (hour t) ++ "-"
    ++ fixed_digits 2 (minute t) ++ "-0.jpg".
Proof.
  unfold _sky_image_filename, strftime.
  cbn [pieces directive_of Ascii.eqb Bool.eqb option_map map render_piece
       render_field field_value String.concat append].
  repeat (rewrite append_assoc; cbn [append]). reflexivity.
Qed.



(* ----------------------------------------------------------------- *)
(** ** Calendar arithmetic *)

Lemma date_eq_fields (a b : date) :
  year a = year b -> month a = month b -> day a = day b -> a = b.
Proof. destruct a, b; cbn; congruence. Qed.

Lemma date_eqb_eq (a b : date) : date_eqb a b = true <-> a = b.
Proof.
  unfold date_eqb. rewrite !andb_true_iff, !Z.eqb_eq. split.
  - intros [[? ?] ?]. apply date_eq_fields; assumption.
  - intros ->. auto.
Qed.

Lemma date_leb_le (a b : date) : date_leb a b = true <-> date_le a b.
Proof.
  unfold date_leb, date_ltb, date_eqb, date_le.
  rewrite !orb_true_iff, !andb_true_iff, !orb_true_iff, !andb_true_iff,
    !Z.ltb_lt, !Z.eqb_eq.
  lia.
Qed.

Lemma date_leb_nle (a b : date) : date_leb a b = false <-> ~ date_le a b.
Proof.
  rewrite <- date_leb_le. symmetry. apply not_true_iff_false.
Qed.

Lemma date_in_In (x : date) (l : list date) : date_in x l = true <-> In x l.
Proof.
  unfold date_in. rewrite existsb_exists. split.
  - intros (y & Hy & E). apply date_eqb_eq in E. subst. exact Hy.
  - intros H. exists x. split; [exact H|]. apply date_eqb_eq. reflexivity.
Qed.

Lemma days_in_month_ge_28 (y m : Z) : 1 <= m <= 12 -> 28 <= days_in_month y m.
Proof.
  intros Hm. unfold days_in_month.
  destruct ((m =? 2) && is_leap y); [lia|].
  assert (E : m = 1 \/ m = 2 \/ m = 3 \/ m = 4 \/ m = 5 \/ m = 6 \/ m = 7
              \/ m = 8 \/ m = 9 \/ m = 10 \/ m = 11 \/ m = 12) by lia.
  repeat match goal with E : _ \/ _ |- _ => destruct E as [E | E] end;
    subst m; apply Z.leb_le; reflexivity.
Qed.

Lemma days_before_next_month (y m : Z) :
  1 <= m <= 11 ->
  days_before_month y (m + 1) = days_before_month y m + days_in_month y m.
Proof.
  intros Hm.
  assert (E : m = 1 \/ m = 2 \/ m = 3 \/ m = 4 \/ m = 5 \/ m = 6 \/ m = 7
              \/ m = 8 \/ m = 9 \/ m = 10 \/ m = 11) by lia.
  unfold days_before_month, days_in_month.
  repeat match goal with E : _ \/ _ |- _ => destruct E as [E | E] end;
    subst m; destruct (is_leap y); reflexivity.
Qed.

Lemma days_before_next_year (y : Z) :
  days_before_year (y + 1)
  = days_before_year y + (if is_leap y then 366 else 365).
Proof.
  unfold days_before_year, is_leap. cbv zeta.
  replace (y + 1 - 1) with y by lia.
  destruct (Z.eqb_spec (y mod 4) 0), (Z.eqb_spec (y mod 100) 0),
    (Z.eqb_spec (y mod 400) 0); cbn [andb orb negb];
    Z.div_mod_to_equations; lia.
Qed.

(** The day after a valid date, when there is one, is a valid date
    and the next ordinal. *)
Lemma next_day_valid (d d' : date) :
  valid_date d = true -> next_day d = Ret d' ->
  valid_date d' = true /\ toordinal d' = toordinal d + 1.
Proof.
  intros Hv. pose proof (valid_date_bounds d Hv) as (Hy & Hm & Hd).
  unfold next_day, MAXYEAR.
  destruct (Z.ltb_spec (day d) (days_in_month (year d) (month d))) as [H1|H1];
    [|destruct (Z.ltb_spec (month d) 12) as [H2|H2];
      [|destruct (Z.ltb_spec (year d) 9999) as [H3|H3]]];
    intros E; inversion E; subst d'; clear E.
  - split.
    + unfold valid_date, MINYEAR, MAXYEAR; cbn [year month day].
      rewrite !andb_true_iff, !Z.leb_le. lia.
    + unfold toordinal; cbn [year month day]. lia.
  - split.
    + pose proof (days_in_month_ge_28 (year d) (month d + 1)).
      unfold valid_date, MINYEAR, MAXYEAR; cbn [year month day].
      rewrite !andb_true_iff, !Z.leb_le. lia.
    + unfold toordinal; cbn [year month day].
      rewrite days_before_next_month by lia. lia.
  - split.
    + pose proof (days_in_month_ge_28 (year d + 1) 1).
      unfold valid_date, MINYEAR, MAXYEAR; cbn [year month day].
      rewrite !andb_true_iff, !Z.leb_le. lia.
    + unfold toordinal; cbn [year month day].
      rewrite days_before_next_year.
      assert (Em : month d = 12) by lia. rewrite Em in *.
      assert (Ed : day d = 31).
      { change (days_in_month (year d) 12) with 31 in *. lia. }
      rewrite Ed.
      change (days_before_month (year d + 1) 1) with (0 + 0).
      change (days_before_month (year d) 12)
        with (334 + if is_leap (year d) then 1 else 0).
      destruct (is_leap (year d)); lia.
Qed.

(** Nothing lies between a date and the day after. *)
Lemma next_day_least (d d' x : date) :
  valid_date d = true -> valid_date x = true -> next_day d = Ret d' ->
  (date_le d x <-> x = d \/ date_le d' x).
Proof.
  intros Hv Hx. pose proof (valid_date_bounds d Hv) as (Hy & Hm & Hd).
  pose proof (valid_date_bounds x Hx) as (Hxy & Hxm & Hxd).
  assert (Heq : x = d <-> year x = year d /\ month x = month d /\ day x = day d).
  { split; [intros ->; auto | intros (? & ? & ?); apply date_eq_fields; auto]. }
  rewrite Heq. unfold next_day, MAXYEAR, date_le.
  destruct (Z.ltb_spec (day d) (days_in_month (year d) (month d))) as [H1|H1];
    [|destruct (Z.ltb_spec (month d) 12) as [H2|H2];
      [|destruct (Z.ltb_spec (year d) 9999) as [H3|H3]]];
    intros E; inversion E; subst d'; clear E; cbn [year month day].
  - lia.
  - assert (year x = year d /\ month x = month d ->
            day x <= days_in_month (year d) (month d)).
    { intros [E1 E2]. rewrite <- E1, <- E2. lia. }
    lia.
  - assert (year x = year d /\ month x = month d ->
            day x <= days_in_month (year d) (month d)).
    { intros [E1 E2]. rewrite <- E1, <- E2. lia. }
    lia.
Qed.

(** Only the last date has no day after. *)
Lemma next_day_overflow (d : date) (e : exn) :
  valid_date d = true -> next_day d = Raise e ->
  d = mkDate 9999 12 31 /\ e = OverflowError.
Proof.
  intros Hv. pose proof (valid_date_bounds d Hv) as (Hy & Hm & Hd).
  unfold next_day, MAXYEAR.
  destruct (Z.ltb_spec (day d) (days_in_month (year d) (month d))) as [H1|H1];
    [|destruct (Z.ltb_spec (month d) 12) as [H2|H2];
      [|destruct (Z.ltb_spec (year d) 9999) as [H3|H3]]];
    intros E; inversion E; subst.
  assert (Em : month d = 12) by lia. rewrite Em in *.
  change (days_in_month (year d) 12) with 31 in *.
  split; [|reflexivity]. apply date_eq_fields; cbn; lia.
Qed.

Lemma date_le_refl (d : date) : date_le d d.
Proof. unfold date_le. lia. Qed.

Lemma date_le_antisym (a b : date) : date_le a b -> date_le b a -> a = b.
Proof. unfold date_le. intros H1 H2. apply date_eq_fields; lia. Qed.

Lemma date_le_last (d : date) :
  valid_date d = true -> date_le d (mkDate 9999 12 31).
Proof.
  intros Hv. pose proof (valid_date_bounds d Hv) as (Hy & Hm & Hd).
  pose proof (days_in_month_le_31 (year d) (month d)).
  unfold date_le; cbn. lia.
Qed.

Lemma next_day_steps_left (d d' : date) :
  next_day d = Ret d' -> (steps_left d' < steps_left d)%nat.
Proof.
  unfold steps_left, next_day, rank, rank_top, MAXYEAR.
  pose proof (days_in_month_le_31 (year d) (month d)).
  destruct (Z.ltb_spec (day d) (days_in_month (year d) (month d)));
    [|destruct (Z.ltb_spec (month d) 12); [|destruct (Z.ltb_spec (year d) 9999)]];
    intros E; inversion E; subst; cbn [year month day]; lia.
Qed.

(* ----------------------------------------------------------------- *)
(** ** The DateRange Expander *)

(** The loop, unfolded once. *)
Lemma date_range_step (cur end_d : date) :
  date_range cur end_d
  = if date_leb cur end_d
    then match next_day cur with
         | Raise e => Raise e
         | Ret nxt => obind (date_range nxt end_d) (fun rest => Ret (cur :: rest))
         end
    else Ret [].
Proof.
  rewrite date_range_equation_1.
  destruct (date_leb cur end_d); cbn; [|reflexivity].
  unfold inspect. destruct (next_day cur); reflexivity.
Qed.

Lemma last_nonempty {A} (a : A) (l : list A) (d1 d2 : A) :
  last (a :: l) d1 = last (a :: l) d2.
Proof.
  revert a. induction l as [|b l IH]; intros a; [reflexivity|].
  change (last (b :: l) d1 = last (b :: l) d2). apply IH.
Qed.

Lemma date_range_from (end_d : date) :
  valid_date end_d = true -> end_d <> last_date ->
  forall (n : nat) (cur : date),
    (steps_left cur < n)%nat ->
    valid_date cur = true -> date_le cur end_d ->
    exists l, date_range cur end_d = Ret l /\ range_from cur end_d l.
Proof.
  intros Hve Hnl. induction n as [|n IH]; intros cur Hn Hvc Hle; [lia|].
  rewrite date_range_step.
  pose proof Hle as Hleb. apply date_leb_le in Hleb. rewrite Hleb.
  destruct (next_day cur) as [nxt|e] eqn:Hnext.
  2:{ exfalso. destruct (next_day_overflow cur e Hvc Hnext) as [-> _].
      apply Hnl. apply date_le_antisym; [apply date_le_last; exact Hve|exact Hle]. }
  destruct (next_day_valid cur nxt Hvc Hnext) as [Hvn Hord].
  pose proof (next_day_steps_left cur nxt Hnext) as Hsteps.
  destruct (date_leb nxt end_d) eqn:Hnle.
  - apply date_leb_le in Hnle.
    destruct (IH nxt ltac:(lia) Hvn Hnle)
      as (l & Hl & Hhd & Hlast & Hcons & Hnth & Hin & Hlen).
    rewrite Hl. cbn [obind].
    destruct l as [|x rest]; [discriminate|].
    cbn in Hhd. injection Hhd as ->.
    exists (cur :: nxt :: rest). split; [reflexivity|].
    repeat split.
    + rewrite <- Hlast. change (last (nxt :: rest) cur = last (nxt :: rest) nxt).
      apply last_nonempty.
    + exact Hnext.
    + exact Hcons.
    + intros [|i] d; cbn [nth_error].
      * intros [= <-]. lia.
      * intros Hd. rewrite (Hnth i d Hd). lia.
    + destruct H as [<- | H]; [exact Hvc|]. apply Hin in H. apply H.
    + destruct H as [<- | H]; [apply date_le_refl|].
      apply Hin in H. destruct H as (Hvd & Hnd & _).
      apply (next_day_least cur nxt d Hvc Hvd Hnext). right. exact Hnd.
    + destruct H as [<- | H]; [exact Hle|]. apply Hin in H. apply H.
    + intros (Hvd & Hcd & Hde).
      apply (next_day_least cur nxt d Hvc Hvd Hnext) in Hcd.
      destruct Hcd as [-> | Hnd]; [left; reflexivity|].
      right. apply Hin. auto.
    + cbn [length] in *. lia.
  - apply date_leb_nle in Hnle.
    assert (Hend : end_d = cur).
    { apply (next_day_least cur nxt end_d Hvc Hve Hnext) in Hle.
      destruct Hle as [E | E]; [exact E | contradiction]. }
    subst end_d.
    rewrite date_range_step.
    replace (date_leb nxt cur) with false
      by (symmetry; apply date_leb_nle; exact Hnle).
    cbn [obind]. exists [cur]. split; [reflexivity|].
    repeat split.
    + intros [|[|i]] d; cbn; try discriminate. intros [= <-]. lia.
    + destruct H as [<- | []]. exact Hvc.
    + destruct H as [<- | []]. apply date_le_refl.
    + destruct H as [<- | []]. apply date_le_refl.
    + intros (_ & H1 & H2). left. apply date_le_antisym; assumption.
    + cbn. lia.
Qed.

(** C9, as the code has it.  For valid dates [start_d <= end_d] with
    [end_d] before the last date 9999-12-31, the DateRange Expander
    returns the dates from [start_d] to [end_d]: the first is
    [start_d], the last is [end_d], each is followed by the day after
    it (the [i]-th element is day [i] after [start_d]), and a date is
    in the list exactly when it lies between the two.  For
    [start_d > end_d] the loop ends at once with the empty list. *)
Theorem date_range_inclusive (start_d end_d : date)
    (Hstart : valid_date start_d = true)
    (Hend : valid_date end_d = true)
    (Hbefore_last : end_d <> last_date) :
  (date_leb start_d end_d = true ->
   exists l,
     date_range start_d end_d = Ret l
     /\ hd_error l = Some start_d
     /\ last l start_d = end_d
     /\ consecutive_days l
     /\ (forall i d, nth_error l i = Some d ->
                     toordinal d = toordinal start_d + Z.of_nat i)
     /\ (forall d, In d l <->
                   valid_date d = true
                   /\ date_leb start_d d = true /\ date_leb d end_d = true)
     /\ Z.of_nat (length l) = toordinal end_d - toordinal start_d + 1)
  /\ (date_leb start_d end_d = false -> date_range start_d end_d = Ret []).
Proof.
  split.
  - intros Hle. apply date_leb_le in Hle.
    destruct (date_range_from end_d Hend Hbefore_last
                (S (steps_left start_d)) start_d ltac:(lia) Hstart Hle)
      as (l & Hl & Hhd & Hlast & Hcons & Hnth & Hin & Hlen).
    exists l. repeat split; try assumption.
    + apply Hin; assumption.
    + apply date_leb_le. apply Hin; assumption.
    + apply date_leb_le. apply Hin; assumption.
    + intros (Hv & H1 & H2). apply Hin.
      apply date_leb_le in H1, H2. auto.
  - intros Hgt. rewrite date_range_step, Hgt. reflexivity.
Qed.

(** Without the bound on [end_d] the property fails: at the last date the
    loop appends it and then steps past the end of the calendar. *)
Lemma date_range_last_date_overflows :
  valid_date last_date = true
  /\ date_leb last_date last_date = true
  /\ date_range last_date last_date = Raise OverflowError
  /\ ~ (exists l, date_range last_date last_date = Ret l).
Proof.
  assert (E : date_range last_date last_date = Raise OverflowError).
  { rewrite date_range_step. reflexivity. }
  repeat split; try reflexivity; try exact E.
  intros [l Hl]. rewrite E in Hl. discriminate.
Qed.

Lemma date_range_inclusive_witness :
  (exists l,
      date_range (mkDate 2019 12 30) (mkDate 2020 1 2) = Ret l
      /\ hd_error l = Some (mkDate 2019 12 30)
      /\ last l (mkDate 2019 12 30) = mkDate 2020 1 2
      /\ Z.of_nat (length l) = 4)
  /\ date_range (mkDate 2019 12 30) (mkDate 2019 12 29) = Ret [].
Proof.
  split.
  - destruct (date_range_inclusive (mkDate 2019 12 30) (mkDate 2020 1 2)
                eq_refl eq_refl ltac:(discriminate)) as [H _].
    destruct (H eq_refl) as (l & H1 & H2 & H3 & _ & _ & _ & H4).
    exists l. repeat split; assumption.
  - destruct (date_range_inclusive (mkDate 2019 12 30) (mkDate 2019 12 29)
                eq_refl eq_refl ltac:(discriminate)) as [_ H].
    exact (H eq_refl).
Defined.

(* ----------------------------------------------------------------- *)
(** ** Character tests and the patterns of [strptime] *)

Lemma code_chr (n : Z) : 0 <= n < 256 -> code (chr n) = n.
Proof.
  intros H. unfold code, chr. rewrite N_ascii_embedding; lia.
Qed.

Lemma code_bound (c : ascii) : 0 <= code c < 256.
Proof. unfold code. pose proof (N_ascii_bounded c). lia. Qed.

Lemma code_inj (a b : ascii) : code a = code b -> a = b.
Proof.
  unfold code. intros H. apply N2Z.inj in H.
  rewrite <- (ascii_N_embedding a), <- (ascii_N_embedding b). congruence.
Qed.

(** A literal that is not a letter matches itself only. *)
Lemma lit_matches_exact (c x : ascii) :
  code c < 65 -> lit_matches c x = true -> x = c.
Proof.
  intros Hc H. unfold lit_matches in H. apply Ascii.eqb_eq in H.
  pose proof (code_bound x) as Hx.
  assert (Hl : lower_char c = c).
  { unfold lower_char. cbv zeta.
    destruct (Z.leb_spec 65 (code c)); [lia|].
    destruct (Z.leb_spec 192 (code c)); [lia|]. reflexivity. }
  rewrite Hl in H. unfold lower_char in H. cbv zeta in H.
  destruct (((65 <=? code x) && (code x <=? 90))
            || ((192 <=? code x) && (code x <=? 222) && negb (code x =? 215)))
    eqn:E; [|exact H].
  exfalso. apply (f_equal code) in H.
  destruct (Z.leb_spec 65 (code x)), (Z.leb_spec (code x) 90),
    (Z.leb_spec 192 (code x)), (Z.leb_spec (code x) 222);
    cbn in E; try discriminate; rewrite code_chr in H; lia.
Qed.

Lemma in_range_is_digit (lo hi c : ascii) :
  is_digit lo = true -> is_digit hi = true -> in_range lo hi c = true ->
  is_digit c = true.
Proof.
  intros Hlo Hhi H. apply is_digit_code in Hlo, Hhi.
  unfold is_digit, in_range in *. change (code "0") with 48.
  change (code "9") with 57. apply andb_true_iff in H. destruct H as [H1 H2].
  apply Z.leb_le in H1, H2. apply andb_true_iff. rewrite !Z.leb_le. lia.
Qed.

(** A match splits the subject into the matched text and the rest. *)
Lemma rmatch_splits (r : re) (s x rest : string) :
  In (x, rest) (rmatch r s) -> s = x ++ rest.
Proof.
  revert s x rest. induction r as [c|lo hi| |a IHa b IHb|a IHa b IHb];
    intros s x rest; cbn.
  1-3: destruct s as [|c0 s]; cbn; [tauto|];
       match goal with |- In _ (if ?t then _ else _) -> _ => destruct t end;
       cbn; [intros [[= <- <-]|[]]; reflexivity | tauto].
  - rewrite in_flat_map. intros ([x1 r1] & H1 & H2).
    apply in_map_iff in H2. destruct H2 as ([y r2] & [= <- <-] & H2).
    rewrite (IHa _ _ _ H1), (IHb _ _ _ H2). symmetry. apply append_assoc.
  - intros H. apply in_app_or in H. destruct H; [eapply IHa|eapply IHb]; eauto.
Qed.

Lemma match_pieces_sound (ps : list piece) (s : string) m rest :
  In (m, rest) (match_pieces ps s) -> pieces_match ps s m rest.
Proof.
  revert s m rest. induction ps as [|p ps IH]; intros s m rest; cbn.
  - intros [[= <- <-]|[]]. constructor.
  - rewrite in_flat_map. intros ([x r] & H1 & H2).
    apply in_map_iff in H2. destruct H2 as ([xs r2] & [= <- <-] & H2).
    econstructor; eauto.
Qed.

(** What each directive can match. *)
Ltac split_tests H :=
  repeat match type of H with
         | context [if ?t then _ else _] =>
             let E := fresh "E" in destruct t eqn:E; cbn in H
         end.

Ltac digit_facts :=
  repeat match goal with
         | E : lit_matches ?c ?x = true |- _ =>
             apply lit_matches_exact in E; [subst x | cbn; lia]
         | E : in_range ?lo ?hi ?x = true |- _ =>
             apply in_range_is_digit in E; [|reflexivity|reflexivity]
         end.

Ltac solve_match H :=
  split_tests H;
  repeat match type of H with
         | _ \/ _ => destruct H as [H | H]
         | False => destruct H
         end;
  try (injection H as <- <-); digit_facts.

Ltac use_digits :=
  cbn;
  repeat match goal with E : is_digit _ = true |- _ => rewrite E; clear E end;
  cbn; auto.

Lemma rmatch_year (s x rest : string) :
  In (x, rest) (rmatch (directive_re dY) s) ->
  String.length x = 4%nat /\ all_chars is_digit x = true.
Proof.
  intros H. destruct s as [|c1 [|c2 [|c3 [|c4 s]]]]; cbn in H;
    solve_match H; try tauto; use_digits.
Qed.

(** [%m], [%H] and [%M] match one or two digits. *)
Lemma rmatch_digits (d : directive) (s x rest : string) :
  d = dm \/ d = dH \/ d = dM ->
  In (x, rest) (rmatch (directive_re d) s) ->
  (String.length x = 1%nat \/ String.length x = 2%nat)
  /\ all_chars is_digit x = true.
Proof.
  intros [-> | [-> | ->]] H; destruct s as [|c1 [|c2 s]]; cbn in H;
    solve_match H; try tauto; use_digits.
Qed.

(** [%d] matches one or two digits, or a space and a digit. *)
Lemma rmatch_day (s x rest : string) :
  In (x, rest) (rmatch (directive_re dd) s) ->
  (String.length x = 1%nat \/ String.length x = 2%nat)
  /\ (all_chars is_digit x = true
      \/ exists c, x = String " " (String c EmptyString) /\ is_digit c = true).
Proof.
  intros H; destruct s as [|c1 [|c2 s]]; cbn in H;
    solve_match H; try tauto; split; auto;
    try (left; use_digits; fail); right; eexists; split; [reflexivity|assumption].
Qed.

Lemma rmatch_literal (c : ascii) (s x rest : string) :
  In (x, rest) (rmatch (Lit c) s) -> String.length x = 1%nat.
Proof.
  intros H. destruct s as [|c1 s]; cbn in H; solve_match H; tauto.
Qed.

(* ----------------------------------------------------------------- *)
(** ** Slices *)

Lemma take_length (n : nat) (s : string) :
  String.length (take n s) = Nat.min n (String.length s).
Proof.
  revert s. induction n as [|n IH]; intros [|c s]; cbn; auto.
Qed.

Lemma take_take (n m : nat) (s : string) :
  (n <= m)%nat -> take n (take m s) = take n s.
Proof.
  revert m s. induction n as [|n IH]; intros m s H; [reflexivity|].
  destruct m as [|m]; [lia|]. destruct s as [|c s]; cbn; [reflexivity|].
  rewrite IH by lia. reflexivity.
Qed.


Lemma take_app (a b : string) (n : nat) :
  take (String.length a + n) (a ++ b) = a ++ take n b.
Proof. induction a as [|c a IH]; cbn; congruence. Qed.

Lemma take_all (n : nat) (s : string) :
  (String.length s <= n)%nat -> take n s = s.
Proof.
  revert s. induction n as [|n IH]; intros [|c s] H; cbn in *;
    try reflexivity; try lia.
  rewrite IH by lia. reflexivity.
Qed.

Lemma len_take_13 (cell : string) :
  (len cell <? 13) = false -> String.length (take 13 cell) = 13%nat.
Proof.
  unfold len. intros H. apply Z.ltb_ge in H. rewrite take_length. lia.
Qed.

(* ----------------------------------------------------------------- *)
(** ** [int] and [strptime] raise nothing but [ValueError] *)

Lemma py_int_raises (s : string) (e : exn) :
  py_int s = Raise e -> e = ValueError.
Proof.
  unfold py_int.
  destruct (match strip s with
            | EmptyString => (false, strip s)
            | String c r =>
                if Ascii.eqb c "-" then (true, r)
                else if Ascii.eqb c "+" then (false, r) else (false, strip s)
            end) as [neg body].
  destruct (MAX_STR_DIGITS <? digit_count body); [congruence|].
  destruct (int_digits 0 false body); congruence.
Qed.

Lemma represents_int_returns (s : string) :
  represents_int s = Ret (match py_int s with Ret _ => true | Raise _ => false end).
Proof.
  unfold represents_int. destruct (py_int s) as [n|e] eqn:E; cbn; [reflexivity|].
  rewrite (py_int_raises s e E). reflexivity.
Qed.

Lemma make_datetime_raises (y m d h mi : Z) (e : exn) :
  make_datetime y m d h mi = Raise e -> e = ValueError.
Proof.
  unfold make_datetime, make_date.
  destruct (valid_date _); cbn; [|congruence].
  destruct (valid_time h mi); congruence.
Qed.

Lemma strptime_raises (data fmt : string) (e : exn) :
  strptime data fmt = Raise e -> e = ValueError.
Proof.
  unfold strptime, int_field.
  destruct (pieces fmt) as [ps|]; [|congruence].
  destruct (repeated_field ps); [congruence|].
  destruct (match_pieces ps data) as [|[m rest] tl]; [congruence|].
  destruct (negb (String.eqb rest "")); [congruence|].
  repeat match goal with
         | |- obind ?o _ = _ -> _ =>
             let E := fresh "E" in
             destruct o as [?|?] eqn:E; cbn [obind];
             [|intros [= <-];
               repeat match type of E with
                      | match ?f with _ => _ end = _ => destruct f
                      end;
               try discriminate; eapply py_int_raises; eassumption]
         end.
  apply make_datetime_raises.
Qed.

(** The parser's result is always a value. *)
Lemma parse_returns (cell : string) :
  _parse_meteoblue_datetime cell
  = Ret (if String.eqb cell "" || (len cell <? 13) then None
         else match py_int (take 8 cell) with
              | Raise _ => None
              | Ret _ =>
                  match strptime (take 13 cell) "%Y%m%dT%H%M" with
                  | Ret t => Some t
                  | Raise _ => None
                  end
              end).
Proof.
  unfold _parse_meteoblue_datetime.
  destruct (String.eqb cell "" || (len cell <? 13)); [reflexivity|].
  rewrite represents_int_returns. cbn [obind].
  destruct (py_int (take 8 cell)); cbn [negb]; [|reflexivity].
  destruct (strptime (take 13 cell) "%Y%m%dT%H%M") as [t|e] eqn:E;
    cbn [obind try_except]; [reflexivity|].
  rewrite (strptime_raises _ _ e E). reflexivity.
Qed.

(* ----------------------------------------------------------------- *)
(** ** What [strptime] accepts for [%Y%m%dT%H%M] *)

Lemma pieces_stamp : pieces "%Y%m%dT%H%M" = Some stamp_pieces.
Proof. reflexivity. Qed.

(** If [strptime] accepts thirteen characters, they are four, two and
    two characters for year, month and day, then five more; year and
    month are digits and the day is two digits or a space and a
    digit. *)
Lemma strptime_stamp_shape (data : string) (t : datetime) :
  String.length data = 13%nat ->
  strptime data "%Y%m%dT%H%M" = Ret t ->
  exists x1 x2 x3 tail,
    data = x1 ++ x2 ++ x3 ++ tail
    /\ String.length x1 = 4%nat /\ String.length x2 = 2%nat
    /\ String.length x3 = 2%nat
    /\ all_chars is_digit x1 = true /\ all_chars is_digit x2 = true
    /\ (all_chars is_digit x3 = true
        \/ exists c, x3 = String " " (String c EmptyString) /\ is_digit c = true).
Proof.
  intros Hlen H. unfold strptime in H. rewrite pieces_stamp in H.
  change (repeated_field stamp_pieces) with false in H. cbv iota in H.
  destruct (match_pieces stamp_pieces data) as [|[m rest] tl] eqn:Hm;
    [discriminate|].
  destruct (String.eqb_spec rest "") as [->|]; [|discriminate].
  assert (Hin : In (m, "") (match_pieces stamp_pieces data))
    by (rewrite Hm; left; reflexivity).
  clear H Hm. apply match_pieces_sound in Hin. unfold stamp_pieces in Hin.
  repeat match goal with
         | H : pieces_match (_ :: _) _ _ _ |- _ => inversion H; subst; clear H
         | H : pieces_match [] _ _ _ |- _ => inversion H; subst; clear H
         end.
  repeat match goal with
         | H : In (?x, ?r) (rmatch (piece_re ?p) ?s) |- _ =>
             let S := fresh "S" in
             pose proof (rmatch_splits _ _ _ _ H) as S; cbn [piece_re] in H;
             first [ apply rmatch_year in H
                   | apply rmatch_day in H
                   | apply rmatch_literal in H
                   | apply rmatch_digits in H; [|tauto] ];
             subst s
         end.
  rewrite !length_app in Hlen. cbn in Hlen.
  repeat match goal with H : _ /\ _ |- _ => destruct H end.
  do 4 eexists. split; [reflexivity|].
  repeat split; try assumption; lia.
Qed.

(** [int] refuses a space between digits. *)
Lemma int_digits_space (a r : string) (acc : Z) (prev : bool) :
  all_chars is_digit a = true ->
  int_digits acc prev (a ++ String " " r) = None.
Proof.
  revert acc prev. induction a as [|c a IH]; intros acc prev H; cbn.
  - reflexivity.
  - cbn in H. apply andb_true_iff in H. destruct H as [Hc Ha].
    unfold digit_val. rewrite Hc. apply IH. exact Ha.
Qed.

Lemma srev_onto_app (a b acc : string) :
  srev_onto (a ++ b) acc = srev_onto b (srev_onto a acc).
Proof.
  revert acc. induction a as [|c a IH]; intros acc; cbn; [reflexivity|].
  apply IH.
Qed.

Lemma py_int_inner_space (a : string) (c : ascii) :
  a <> EmptyString -> all_chars is_digit a = true -> is_digit c = true ->
  py_int (a ++ String " " (String c EmptyString)) = Raise ValueError.
Proof.
  intros Hne Ha Hc. destruct a as [|c0 a]; [contradiction|].
  assert (Hc0 : is_digit c0 = true)
    by (cbn in Ha; apply andb_true_iff in Ha; tauto).
  set (s := String c0 a ++ String " " (String c EmptyString)).
  assert (Hstrip : strip s = s).
  { unfold strip, rstrip.
    assert (Hl : lstrip s = s).
    { subst s. cbn. rewrite (is_digit_not_space c0 Hc0). reflexivity. }
    rewrite Hl.
    assert (Hr : lstrip (srev s) = srev s).
    { subst s. unfold srev. rewrite srev_onto_app. cbn.
      rewrite (is_digit_not_space c Hc). reflexivity. }
    rewrite Hr. apply srev_involutive. }
  unfold py_int. rewrite Hstrip. subst s. cbn [append].
  rewrite (is_digit_not_char c0 "-" Hc0) by (cbn; lia).
  rewrite (is_digit_not_char c0 "+" Hc0) by (cbn; lia).
  change (String c0 (a ++ String " " (String c "")))
    with (String c0 a ++ String " " (String c "")).
  rewrite int_digits_space by exact Ha.
  destruct (MAX_STR_DIGITS <? _); reflexivity.
Qed.

(** The digit test of the parser and [strptime] together leave only
    digits in the date part. *)
Lemma parse_date_part_digits (cell : string) (t : datetime) :
  _parse_meteoblue_datetime cell = Ret (Some t) ->
  all_chars is_digit (take 8 cell) = true.
Proof.
  rewrite parse_returns.
  destruct (String.eqb cell "") eqn:E0; cbn [orb]; [discriminate|].
  destruct (len cell <? 13) eqn:Elen; [discriminate|].
  destruct (py_int (take 8 cell)) as [n|] eqn:Eint; [|discriminate].
  destruct (strptime (take 13 cell) "%Y%m%dT%H%M") as [t'|] eqn:Ep;
    [|discriminate].
  intros _.
  destruct (strptime_stamp_shape _ _ (len_take_13 cell Elen) Ep)
    as (x1 & x2 & x3 & tail & Hd & L1 & L2 & L3 & D1 & D2 & D3).
  assert (H8 : take 8 cell = x1 ++ x2 ++ x3).
  { rewrite <- (take_take 8 13) by lia. rewrite Hd.
    change 8%nat with (4 + (2 + (2 + 0)))%nat.
    rewrite <- L1 at 1. rewrite take_app. rewrite <- L2 at 1. rewrite take_app.
    rewrite <- L3 at 1. rewrite take_app. cbn [take].
    rewrite append_empty_r. reflexivity. }
  rewrite H8 in *. destruct D3 as [D3 | (c & -> & Hc)].
  - rewrite !all_chars_app, D1, D2, D3. reflexivity.
  - exfalso. rewrite <- append_assoc in Eint.
    rewrite py_int_inner_space in Eint; [discriminate| | |exact Hc].
    + destruct x1; [discriminate|]. discriminate.
    + rewrite all_chars_app, D1, D2. reflexivity.
Qed.

(** C6.  On every string the Timestamp Parser returns a value, never
    an exception, and the value is absent when the string has fewer
    than 13 characters, when its first 8 characters are not all
    decimal digits, and when [strptime] refuses its first 13
    characters for [%Y%m%dT%H%M]. *)
Theorem timestamp_parser_rejects (cell : string) :
  exists r,
    _parse_meteoblue_datetime cell = Ret r
    /\ (len cell < 13 -> r = None)
    /\ (all_chars is_digit (take 8 cell) = false -> r = None)
    /\ (forall e, strptime (take 13 cell) "%Y%m%dT%H%M" = Raise e -> r = None).
Proof.
  destruct (_parse_meteoblue_datetime cell) as [r|e] eqn:Hrun;
    [|rewrite parse_returns in Hrun; discriminate].
  exists r. split; [reflexivity|]. split; [|split].
  - intros Hlen. rewrite parse_returns in Hrun.
    apply Z.ltb_lt in Hlen. rewrite Hlen, orb_true_r in Hrun. congruence.
  - intros Hnd. destruct r as [t|]; [|reflexivity].
    rewrite (parse_date_part_digits cell t Hrun) in Hnd. discriminate.
  - intros e He. rewrite parse_returns, He in Hrun.
    destruct (String.eqb cell "" || (len cell <? 13)); [congruence|].
    destruct (py_int (take 8 cell)); congruence.
Qed.

(** The digit test matters: [strptime] alone would read a day written
    as a space and a digit. *)
Example parser_space_day :
  strptime "201905 3T0900" "%Y%m%dT%H%M"
  = Ret (mkDateTime (mkDate 2019 5 3) 9 0)
  /\ _parse_meteoblue_datetime "201905 3T0900" = Ret None.
Proof. split; reflexivity. Qed.

Example parser_examples :
  _parse_meteoblue_datetime "20190523T0900"
  = Ret (Some (mkDateTime (mkDate 2019 5 23) 9 0))
  /\ _parse_meteoblue_datetime "20190523T0900:00+02"
     = Ret (Some (mkDateTime (mkDate 2019 5 23) 9 0))
  /\ _parse_meteoblue_datetime "variable" = Ret None
  /\ _parse_meteoblue_datetime "" = Ret None
  /\ _parse_meteoblue_datetime "20190230T0900" = Ret None
  /\ _parse_meteoblue_datetime "20190523T2400" = Ret None
  /\ _parse_meteoblue_datetime "00000523T0900" = Ret None
  /\ _parse_meteoblue_datetime "+2019052T0900" = Ret None.
Proof. repeat split; reflexivity. Qed.

(* ----------------------------------------------------------------- *)
(** ** [strptime] reads back what [strftime] wrote *)

Lemma by_cases_below (P : Z -> Prop) (k : nat) (z : Z) :
  0 <= z < Z.of_nat k ->
  (forall n : nat, (n < k)%nat -> P (Z.of_nat n)) -> P z.
Proof.
  intros Hz H. rewrite <- (Z2Nat.id z) by lia. apply H. lia.
Qed.

Tactic Notation "each_below" integer(k) :=
  let n := fresh "n" in
  let Hn := fresh "Hn" in
  cbv beta; intros n Hn;
  do k (destruct n as [|n]; [first [intros; eexists; reflexivity
                                   | intros; exfalso; lia]|]);
  exfalso; lia.

Lemma rmatch_year_head (y : Z) (r : string) :
  rmatch (directive_re dY) (fixed_digits 4 y ++ r) = [(fixed_digits 4 y, r)].
Proof.
  cbn. repeat (rewrite is_digit_digit_char by apply mod10_digit; cbn).
  reflexivity.
Qed.

Lemma rmatch_month_head (mo : Z) (r : string) :
  1 <= mo <= 12 ->
  exists tl, rmatch (directive_re dm) (fixed_digits 2 mo ++ r)
             = (fixed_digits 2 mo, r) :: tl.
Proof.
  intros H. assert (Hz : 0 <= mo < Z.of_nat 13) by lia. revert H.
  pattern mo. apply (by_cases_below _ 13 mo Hz). each_below 13.
Qed.

Lemma rmatch_day_head (d : Z) (r : string) :
  1 <= d <= 31 ->
  exists tl, rmatch (directive_re dd) (fixed_digits 2 d ++ r)
             = (fixed_digits 2 d, r) :: tl.
Proof.
  intros H. assert (Hz : 0 <= d < Z.of_nat 32) by lia. revert H.
  pattern d. apply (by_cases_below _ 32 d Hz). each_below 32.
Qed.

Lemma rmatch_hour_head (h : Z) (r : string) :
  0 <= h <= 23 ->
  exists tl, rmatch (directive_re dH) (fixed_digits 2 h ++ r)
             = (fixed_digits 2 h, r) :: tl.
Proof.
  intros H. assert (Hz : 0 <= h < Z.of_nat 24) by lia. revert H.
  pattern h. apply (by_cases_below _ 24 h Hz). each_below 24.
Qed.

Lemma rmatch_minute_head (mi : Z) (r : string) :
  0 <= mi <= 59 ->
  exists tl, rmatch (directive_re dM) (fixed_digits 2 mi ++ r)
             = (fixed_digits 2 mi, r) :: tl.
Proof.
  intros H. assert (Hz : 0 <= mi < Z.of_nat 60) by lia. revert H.
  pattern mi. apply (by_cases_below _ 60 mi Hz). each_below 60.
Qed.

Lemma match_pieces_head (p : piece) (ps : list piece) (s x r : string)
      tl m rest tl' :
  rmatch (piece_re p) s = (x, r) :: tl ->
  match_pieces ps r = (m, rest) :: tl' ->
  exists tl'', match_pieces (p :: ps) s = ((p, x) :: m, rest) :: tl''.
Proof.
  intros H1 H2. cbn. rewrite H1. cbn. rewrite H2. cbn.
  eexists. reflexivity.
Qed.




(* ----------------------------------------------------------------- *)
(** ** Strings that encode an instant *)

Lemma digit_char_of_code (c : ascii) :
  is_digit c = true -> digit_char (code c - 48) = c.
Proof.
  intros H. apply is_digit_code in H. apply code_inj.
  unfold digit_char. rewrite code_chr; lia.
Qed.

Lemma digit_val_some (c : ascii) :
  is_digit c = true ->
  digit_val c = Some (code c - 48) /\ 0 <= code c - 48 <= 9.
Proof.
  intros H. unfold digit_val. rewrite H. apply is_digit_code in H.
  split; [reflexivity | lia].
Qed.

Lemma some_eq {A} (x y : A) : Some x = Some y -> x = y.
Proof. congruence. Qed.

Ltac digits_eq :=
  repeat match goal with
         | |- String _ _ = String _ _ => f_equal
         | |- digit_char _ = digit_char _ => f_equal
         end;
  Z.div_mod_to_equations; lia.

Ltac read_digits H :=
  repeat match type of H with
         | context [digit_val ?c] =>
             let E := fresh "E" in
             let B := fresh "B" in
             destruct (digit_val_some c) as [E B]; [assumption|];
             rewrite E in H; clear E
         end.

Lemma digits_at_2 (s : string) (pos : nat) (v : Z) :
  digits_at s pos 2 = Some v ->
  take 2 (drop pos s) = fixed_digits 2 v /\ 0 <= v <= 99.
Proof.
  unfold digits_at. destruct (take 2 (drop pos s)) as [|a [|b [|c f]]];
    cbn -[Z.mul Z.add]; try discriminate.
  destruct (is_digit a) eqn:Ha; [|discriminate].
  destruct (is_digit b) eqn:Hb; [|discriminate]. cbn -[Z.mul Z.add].
  intros H. read_digits H. apply some_eq in H. rewrite <- H.
  rewrite <- (digit_char_of_code a Ha) at 1.
  rewrite <- (digit_char_of_code b Hb) at 1.
  split; [|lia].
  cbn [fixed_digits append].
  digits_eq.
Qed.

Lemma digits_at_4 (s : string) (pos : nat) (v : Z) :
  digits_at s pos 4 = Some v ->
  take 4 (drop pos s) = fixed_digits 4 v /\ 0 <= v <= 9999.
Proof.
  unfold digits_at.
  destruct (take 4 (drop pos s)) as [|a [|b [|c [|d [|e f]]]]];
    cbn -[Z.mul Z.add]; try discriminate.
  destruct (is_digit a) eqn:Ha; [|discriminate].
  destruct (is_digit b) eqn:Hb; [|discriminate].
  destruct (is_digit c) eqn:Hc; [|discriminate].
  destruct (is_digit d) eqn:Hd; [|discriminate]. cbn -[Z.mul Z.add].
  intros H. read_digits H. apply some_eq in H. rewrite <- H.
  rewrite <- (digit_char_of_code a Ha) at 1.
  rewrite <- (digit_char_of_code b Hb) at 1.
  rewrite <- (digit_char_of_code c Hc) at 1.
  rewrite <- (digit_char_of_code d Hd) at 1.
  split; [|lia].
  cbn [fixed_digits append].
  digits_eq.
Qed.

Lemma drop_drop (a b : nat) (s : string) : drop b (drop a s) = drop (a + b) s.
Proof.
  revert s. induction a as [|a IH]; intros s; [reflexivity|].
  destruct s as [|c s]; cbn; [destruct b; reflexivity|]. apply IH.
Qed.

Lemma take_split (a b : nat) (s : string) :
  take (a + b) s = take a s ++ take b (drop a s).
Proof.
  revert s. induction a as [|a IH]; intros s; [reflexivity|].
  destruct s as [|c s]; cbn; [destruct b; reflexivity|].
  rewrite IH. reflexivity.
Qed.

Lemma take_13_fields (s : string) :
  take 13 s
  = take 4 (drop 0 s) ++ take 2 (drop 4 s) ++ take 2 (drop 6 s)
    ++ take 1 (drop 8 s) ++ take 2 (drop 9 s) ++ take 2 (drop 11 s).
Proof.
  change 13%nat with (4 + (2 + (2 + (1 + (2 + 2)))))%nat.
  rewrite !take_split, !drop_drop. reflexivity.
Qed.


Lemma length_13_len (s : string) :
  String.length (take 13 s) = 13%nat -> 13 <= len s.
Proof. rewrite take_length. unfold len. lia. Qed.






(* ----------------------------------------------------------------- *)
(** ** The dates of interest *)

Lemma date_le_trans (a b c : date) : date_le a b -> date_le b c -> date_le a c.
Proof. unfold date_le. lia. Qed.

(** Whenever the expander returns, its list holds exactly the valid
    dates between the two bounds. *)
Lemma date_range_members (end_d : date) (n : nat) :
  forall (cur : date) (l : list date),
    (steps_left cur < n)%nat ->
    valid_date cur = true ->
    date_range cur end_d = Ret l ->
    forall d, In d l <->
              valid_date d = true /\ date_le cur d /\ date_le d end_d.
Proof.
  induction n as [|n IH]; intros cur l Hn Hvc Hrun d; [lia|].
  rewrite date_range_step in Hrun.
  destruct (date_leb cur end_d) eqn:Hle.
  - apply date_leb_le in Hle.
    destruct (next_day cur) as [nxt|e] eqn:Hnext; [|discriminate].
    destruct (next_day_valid cur nxt Hvc Hnext) as [Hvn _].
    pose proof (next_day_steps_left cur nxt Hnext) as Hsteps.
    destruct (date_range nxt end_d) as [l'|] eqn:Hrest; [|discriminate].
    cbn in Hrun. injection Hrun as <-.
    pose proof (IH nxt l' ltac:(lia) Hvn Hrest d) as Hin.
    cbn [In]. rewrite Hin. split.
    + intros [<- | (Hvd & Hnd & Hde)].
      * split; [exact Hvc|]. split; [apply date_le_refl | exact Hle].
      * split; [exact Hvd|]. split; [|exact Hde].
        apply (next_day_least cur nxt d Hvc Hvd Hnext). right. exact Hnd.
    + intros (Hvd & Hcd & Hde).
      apply (next_day_least cur nxt d Hvc Hvd Hnext) in Hcd.
      destruct Hcd as [-> | Hnd]; [left; reflexivity | right; auto].
  - injection Hrun as <-. apply date_leb_nle in Hle. cbn [In]. split; [tauto|].
    intros (_ & H1 & H2). apply Hle. eapply date_le_trans; eassumption.
Qed.

Lemma date_in_range (start_d end_d : date) (dates : list date) (d : date) :
  valid_date start_d = true ->
  date_range start_d end_d = Ret dates ->
  date_in d dates = true
  <-> valid_date d = true /\ date_le start_d d /\ date_le d end_d.
Proof.
  intros Hv Hrun. rewrite date_in_In.
  apply (date_range_members end_d (S (steps_left start_d)) start_d dates);
    [lia | exact Hv | exact Hrun].
Qed.

(* ----------------------------------------------------------------- *)
(** ** The times of interest *)

Lemma observed_In (h mi : Z) : observed h mi = true <-> In (h, mi) observation_times.
Proof.
  unfold observed. rewrite existsb_exists. split.
  - intros ([a b] & Hin & E). cbn in E. apply andb_true_iff in E.
    destruct E as [E1 E2]. apply Z.eqb_eq in E1, E2. subst. exact Hin.
  - intros H. exists (h, mi). split; [exact H|]. cbn. rewrite !Z.eqb_refl.
    reflexivity.
Qed.

Lemma times_table :
  forallb (fun h =>
    forallb (fun mi =>
      Bool.eqb (str_in (fixed_digits 2 h ++ fixed_digits 2 mi) times)
               (observed h mi))
    (upto 60)) (upto 24) = true.
Proof. vm_compute. reflexivity. Qed.

(** The text test of the merger is the test on hour and minute. *)
Lemma hhmm_observed (t : datetime) :
  valid_datetime t = true ->
  str_in (strftime t "%H%M") times = observed (hour t) (minute t).
Proof.
  intros Hv. pose proof (valid_datetime_bounds t Hv) as (_ & _ & _ & Hh & Hm).
  pose proof times_table as T. rewrite forallb_forall in T.
  specialize (T (hour t) (In_upto 24 (hour t) ltac:(lia))).
  rewrite forallb_forall in T.
  specialize (T (minute t) (In_upto 60 (minute t) ltac:(lia))).
  apply Bool.eqb_prop in T. exact T.
Qed.

(** What the parser returns is a valid datetime. *)
Lemma strptime_valid (data fmt : string) (t : datetime) :
  strptime data fmt = Ret t -> valid_datetime t = true.
Proof.
  unfold strptime.
  destruct (pieces fmt) as [ps|]; [|discriminate].
  destruct (repeated_field ps); [discriminate|].
  destruct (match_pieces ps data) as [|[m rest] tl]; [discriminate|].
  destruct (negb (String.eqb rest "")); [discriminate|].
  repeat match goal with
         | |- obind ?o _ = _ -> _ => destruct o; cbn [obind]; [|discriminate]
         end.
  unfold make_datetime, make_date.
  match goal with |- context [valid_date ?d] => destruct (valid_date d) eqn:Hd end;
    cbn [obind]; [|discriminate].
  match goal with |- context [valid_time ?h ?mi] =>
                    destruct (valid_time h mi) eqn:Ht end; [|discriminate].
  intros [= <-]. unfold valid_datetime. cbn. rewrite Hd, Ht. reflexivity.
Qed.

Lemma parse_valid (cell : string) (t : datetime) :
  _parse_meteoblue_datetime cell = Ret (Some t) -> valid_datetime t = true.
Proof.
  rewrite parse_returns.
  destruct (String.eqb cell "" || (len cell <? 13)); [discriminate|].
  destruct (py_int (take 8 cell)); [|discriminate].
  destruct (strptime (take 13 cell) "%Y%m%dT%H%M") as [t'|] eqn:E;
    [|discriminate].
  intros [= <-]. eapply strptime_valid. exact E.
Qed.

(** A metadata label is no timestamp. *)
Lemma metadata_label_not_parsed (c0 : string) :
  str_in c0 metadata_labels = true -> _parse_meteoblue_datetime c0 = Ret None.
Proof.
  unfold str_in, metadata_labels. cbn [existsb]. rewrite !orb_true_iff.
  intros [H | [H | [H | H]]]; try discriminate;
    apply String.eqb_eq in H; subst; reflexivity.
Qed.

Lemma not_metadata_label (c0 : string) :
  c0 <> "variable" -> c0 <> "unit" -> c0 <> "level" ->
  str_in c0 metadata_labels = false.
Proof.
  intros H1 H2 H3. unfold str_in, metadata_labels. cbn [existsb].
  apply String.eqb_neq in H1, H2, H3. rewrite H1, H2, H3. reflexivity.
Qed.

(* ----------------------------------------------------------------- *)
(** ** The [.6f] format *)




(** A NaN or an infinity is written by name. *)
Lemma format_6f_not_finite :
  format_6f S754_nan = "nan"
  /\ format_6f (S754_infinity false) = "inf"
  /\ format_6f (S754_infinity true) = "-inf"
  /\ six_decimals "nan" = false
  /\ six_decimals "inf" = false
  /\ six_decimals "-inf" = false.
Proof. repeat split; reflexivity. Qed.

Example format_6f_examples :
  format_6f (S754_finite false 5 (-1)) = "2.500000"
  /\ format_6f (S754_finite false 3 (-21)) = "0.000001"
  /\ format_6f (S754_finite false 1 (-21)) = "0.000000"
  /\ format_6f (S754_finite true 1 (-1)) = "-0.500000"
  /\ format_6f (S754_zero false) = "0.000000"
  /\ format_6f (S754_finite false 12345 2) = "49380.000000"
  /\ fmt None = "".
Proof. repeat split; reflexivity. Qed.

(* ----------------------------------------------------------------- *)
(** ** The Record Merger on data rows *)

Section MergerRowImports.

Context (C : imports).

Lemma merge_row_data (dates : list date) (c0 : string) (rest : list string)
      (s : state) :
  str_in c0 metadata_labels = false ->
  merge_row C dates (c0 :: rest) s
  = match _parse_meteoblue_datetime c0 with
    | Raise e => (Raise e, parsed s c0)
    | Ret None => (Ret tt, parsed s c0)
    | Ret (Some dt) =>
        if negb (date_in (dt_date dt) dates) then (Ret tt, parsed s c0)
        else if negb (str_in (strftime dt "%H%M") times)
             then (Ret tt, parsed s c0)
             else (covers <- covers_of C dt ;;
                   writerow ((c0 :: rest) ++ map fmt covers)) (parsed s c0)
    end.
Proof.
  intros Hdata. unfold merge_row, parsed.
  cbv [bind lift first_cell stage log]. rewrite Hdata.
  destruct (_parse_meteoblue_datetime c0) as [[dt|]|e]; try reflexivity.
  destruct (negb (date_in (dt_date dt) dates)); [reflexivity|].
  destruct (negb (str_in (strftime dt "%H%M") times)); reflexivity.
Qed.

End MergerRowImports.

Section MergerDataRows.

Context (C : collaborators).

(** C3.  A row that is not a metadata row is dropped, with nothing
    written for it, when its first cell does not parse, when it
    parses to a date outside [start_d .. end_d], and when it parses
    to a time of day outside the allow-set.  [dates] is the list the
    expander returned for the two bounds. *)
Theorem merger_drops_row
    (start_d end_d : date) (dates : list date)
    (c0 : string) (rest : list string) (s : state)
    (Hstart : valid_date start_d = true)
    (Hdates : date_range start_d end_d = Ret dates)
    (Hdata : c0 <> "variable" /\ c0 <> "unit" /\ c0 <> "level")
    (Hdrop : _parse_meteoblue_datetime c0 = Ret None
             \/ exists dt,
                  _parse_meteoblue_datetime c0 = Ret (Some dt)
                  /\ (~ (date_le start_d (dt_date dt)
                         /\ date_le (dt_date dt) end_d)
                      \/ ~ In (hour dt, minute dt) observation_times)) :
  merge_row C dates (c0 :: rest) s
  = (Ret tt, mkState (fs s) (written s) (calls s ++ [parse_called c0])).
Proof.
  destruct Hdata as (H1 & H2 & H3).
  rewrite merge_row_data by (apply not_metadata_label; assumption).
  destruct Hdrop as [-> | (dt & Hp & Hout)]; [reflexivity|]. rewrite Hp.
  destruct (date_in (dt_date dt) dates) eqn:Hin; [|reflexivity].
  cbn [negb].
  assert (Hv : valid_datetime dt = true) by (exact (parse_valid c0 dt Hp)).
  apply (date_in_range start_d end_d dates _ Hstart Hdates) in Hin.
  destruct Hout as [Hout | Hout]; [exfalso; apply Hout; tauto|].
  rewrite (hhmm_observed dt Hv).
  destruct (observed (hour dt) (minute dt)) eqn:Ho; [|reflexivity].
  exfalso. apply Hout. apply observed_In. exact Ho.
Qed.



(** At an observation time the two later offsets stay within the
    hour. *)
Lemma add_minutes_observed (d : date) (h mi k : Z) :
  In (h, mi) observation_times -> k = 0 \/ k = 5 \/ k = 10 ->
  add_minutes (mkDateTime d h mi) k = Ret (mkDateTime d h k).
Proof.
  intros Ht Hk. unfold observation_times in Ht. cbn [In] in Ht.
  repeat match goal with
         | H : _ \/ _ |- _ => destruct H as [H | H]
         | H : (_, _) = (_, _) |- _ => injection H as <- <-
         | H : False |- _ => destruct H
         end; subst k; reflexivity.
Qed.


End MergerDataRows.

(* ----------------------------------------------------------------- *)
(** ** Worked instances *)

Example sample_run :
  let r := main sample_collaborators
                [["variable"; "temperature"]; [];
                 ["20190523T0900"; "17.2"]; ["20190523T0930"; "17.9"];
                 ["20190524T0900"; "15.0"]; ["timestamp"; "x"]]
                feed_state in
  fst r = Ret tt
  /\ written (snd r)
     = [["variable"; "temperature";
         "cloud_cover_t"; "cloud_cover_t+5m"; "cloud_cover_t+10m"];
        ["20190523T0900"; "17.2"; "2.500000"; ""; ""]].
Proof. vm_compute. split; reflexivity. Qed.

Lemma metadata_row_passthrough_witness :
  merge_row sample_collaborators [may_23] ["unit"; "C"] sample_state
  = (Ret tt,
     mkState (fs sample_state)
             [["unit"; "C"; "cloud_cover_t"; "cloud_cover_t+5m";
               "cloud_cover_t+10m"]]
             []).
Proof.
  exact (metadata_row_passthrough sample_collaborators [may_23] "unit" ["C"]
           sample_state (or_intror (or_introl eq_refl))).
Defined.

Lemma feature_computer_catches_exceptions_witness :
  _cloud_cover_from_file sample_imports "nowhere.jpg" sample_state
  = (Ret None,
     mkState (fs sample_state) [] [os_path_exists_called "nowhere.jpg"])
  /\ fst (_cloud_cover_from_file sample_imports
            "sky_camera_images/2019-05-23-09-05-0.jpg" sample_state)
     = Ret None
  /\ fst (_cloud_cover_from_file interrupted_imports
            "sky_camera_images/2019-05-23-09-05-0.jpg" sample_state)
     = Raise KeyboardInterrupt.
Proof.
  split; [|split].
  - exact (proj1 (feature_computer_catches_exceptions sample_imports
                    "nowhere.jpg" sample_state) eq_refl).
  - apply (proj1 (proj2 (feature_computer_catches_exceptions sample_imports
                           "sky_camera_images/2019-05-23-09-05-0.jpg"
                           sample_state))
             (OtherError "decode")).
    + apply load_raises. reflexivity.
    + reflexivity.
  - apply (proj1 (proj2 (proj2 (feature_computer_catches_exceptions
                                  interrupted_imports
                                  "sky_camera_images/2019-05-23-09-05-0.jpg"
                                  sample_state)))
             KeyboardInterrupt).
    + apply load_raises. reflexivity.
    + reflexivity.
    + discriminate.
Defined.

Lemma trigger_skips_populated_dir_witness :
  _ensure_images_downloaded sample_imports may_23 may_23 sample_state
  = (Ret tt,
     mkState (fs sample_state) []
             [os_makedirs_called "sky_camera_images";
              os_listdir_called "sky_camera_images"])
  /\ (forall s1,
        _ensure_images_downloaded fetching_imports may_23 may_23 bare_state
        = (Ret tt, s1) ->
        _ensure_images_downloaded fetching_imports may_23 may_23 s1
        = (Ret tt,
           mkState (fs s1) []
                   [os_makedirs_called "sky_camera_images";
                    os_listdir_called "sky_camera_images";
                    download_sky_camera_images_called
                      "2019-05-23" "2019-05-23";
                    os_makedirs_called "sky_camera_images";
                    os_listdir_called "sky_camera_images"]))
  /\ fst (_ensure_images_downloaded sample_imports may_23 may_23
            blocked_state)
     = Raise FileExistsError
  /\ is_directory
       (fs (snd (_ensure_images_downloaded sample_imports may_23 may_23
                   bare_state))
           "sky_camera_images") = true.
Proof.
  destruct (trigger_skips_populated_dir sample_imports may_23 may_23)
    as (Hskip & _ & _ & Hfile & _ & Hkeeps).
  destruct (trigger_skips_populated_dir fetching_imports may_23 may_23)
    as (_ & Hsecond & _).
  split; [exact (Hskip sample_state eq_refl)|].
  split; [|split; [exact (Hfile blocked_state eq_refl)|]].
  - intros s1 Hfirst.
    assert (Hcontract : downloader_populates fetching_imports).
    { intros a b f f' H. injection H as <-. reflexivity. }
    destruct (Hsecond Hcontract may_23 may_23 bare_state s1 Hfirst)
      as [_ Hrun].
    rewrite Hrun. injection Hfirst as <-. reflexivity.
  - assert (Hcontract : downloader_keeps_directory sample_imports).
    { intros a b f f' Hd H. injection H as <-. exact Hd. }
    apply (Hkeeps Hcontract bare_state). reflexivity.
Defined.


Lemma timestamp_parser_rejects_witness :
  _parse_meteoblue_datetime "201905 3T0900" = Ret None.
Proof.
  destruct (timestamp_parser_rejects "201905 3T0900") as (r & Hrun & _ & Hnd & _).
  rewrite Hrun. f_equal. exact (Hnd eq_refl).
Defined.

Lemma merger_drops_row_witness :
  merge_row sample_collaborators [may_23] ["20190524T0900"; "15.0"] sample_state
  = (Ret tt,
     mkState (fs sample_state) [] [parse_called "20190524T0900"]).
Proof.
  apply (merger_drops_row sample_collaborators may_23 may_23 [may_23]
           "20190524T0900" ["15.0"] sample_state).
  - reflexivity.
  - vm_compute. reflexivity.
  - repeat split; discriminate.
  - right. exists (mkDateTime (mkDate 2019 5 24) 9 0).
    split; [reflexivity|]. left. unfold date_le. cbn. lia.
Defined.



(* ================================================================= *)
(** * Part III.  Further properties *)
(* ================================================================= *)

(* ----------------------------------------------------------------- *)
(** ** The Feature Computer, call by call *)

Section FeatureComputerCalls.

Context (C : collaborators).

(** X1.  When the path exists and every stage succeeds, the Feature
    Computer returns the float made of the cover percentage of the
    channel ratio of the trimmed image, having called, in this order
    and once each, the existence test, load-and-trim, channel ratio
    and cover percentage. *)
Theorem feature_computer_success
    (path : string) (s : state)
    (trimmed : image C) (rb : ratio C) (c : cover C) (x : float)
    (Hexists : fs s path <> Missing)
    (Hload : load_and_trim C path = Ret trimmed)
    (Hratio : process_image_rb_ratio C trimmed = Ret rb)
    (Hcover : calculate_cloud_cover C rb = Ret c)
    (Hfloat : py_float C c = Ret x) :
  _cloud_cover_from_file C path s
  = (Ret (Some x),
     mkState (fs s) (written s)
             (calls s ++ [os_path_exists_called path;
                          load_and_trim_called path;
                          process_image_rb_ratio_called;
                          calculate_cloud_cover_called])).
Proof.
  rewrite feature_run. unfold pipeline_result, pipeline_calls.
  rewrite Hload. cbn [obind]. rewrite Hratio. cbn [obind].
  rewrite Hcover. cbn [obind]. rewrite Hfloat.
  destruct (fs s path); [contradiction | reflexivity | reflexivity].
Qed.


End FeatureComputerCalls.

(* ----------------------------------------------------------------- *)
(** ** What the row loop leaves alone *)

Section MergerFrame.

Context (C : imports).

Lemma lookup_frame (dt : datetime) (k : Z) (s : state) :
  fs (snd (lookup C dt k s)) = fs s
  /\ written (snd (lookup C dt k s)) = written s.
Proof.
  unfold lookup. cbv [bind lift stage log].
  destruct (add_minutes dt k) as [t|e]; [|split; reflexivity].
  rewrite feature_result. split; reflexivity.
Qed.

Lemma collect_frame (dt : datetime) (ks : list Z) :
  forall s,
    fs (snd (collect ks (lookup C dt) s)) = fs s
    /\ written (snd (collect ks (lookup C dt) s)) = written s.
Proof.
  induction ks as [|k ks IH]; intros s; [split; reflexivity|].
  cbn [collect]. cbv [bind].
  destruct (lookup_frame dt k s) as [F W].
  destruct (lookup C dt k s) as [[v|e] s1]; cbn [snd] in F, W;
    [|split; assumption].
  destruct (IH s1) as [F' W'].
  destruct (collect ks (lookup C dt) s1) as [[vs|e] s2];
    unfold ret; cbn [snd] in *; split; congruence.
Qed.

Lemma merge_row_frame (dates : list date) (row : list string) (s : state) :
  fs (snd (merge_row C dates row s)) = fs s
  /\ exists outs,
       written (snd (merge_row C dates row s)) = (written s ++ outs)%list
       /\ (length outs <= 1)%nat.
Proof.
  assert (Hnone : forall st : state,
             fs st = fs s -> written st = written s ->
             fs st = fs s
             /\ exists outs, written st = (written s ++ outs)%list
                             /\ (length outs <= 1)%nat).
  { intros st F W. split; [exact F|]. exists []. rewrite app_nil_r.
    split; [exact W | cbn; lia]. }
  destruct row as [|c0 rest]; [apply Hnone; reflexivity|].
  destruct (str_in c0 metadata_labels) eqn:Hlabel.
  - unfold merge_row. cbv [bind lift first_cell]. rewrite Hlabel.
    cbn. split; [reflexivity|]. eexists. split; [reflexivity | cbn; lia].
  - rewrite merge_row_data by exact Hlabel.
    destruct (_parse_meteoblue_datetime c0) as [[dt|]|e];
      try (apply Hnone; reflexivity).
    destruct (negb (date_in (dt_date dt) dates));
      [apply Hnone; reflexivity|].
    destruct (negb (str_in (strftime dt "%H%M") times));
      [apply Hnone; reflexivity|].
    cbv [bind].
    destruct (collect_frame dt [0; 5; 10] (parsed s c0)) as [F W].
    change (covers_of C dt) with (collect [0; 5; 10] (lookup C dt)).
    destruct (collect [0; 5; 10] (lookup C dt) (parsed s c0))
      as [[covers|e] s1]; cbn [snd] in F, W.
    + cbn. split; [exact F|]. eexists. rewrite W.
      split; [reflexivity | cbn; lia].
    + apply Hnone; assumption.
Qed.

(** X3.  The row loop leaves the file system as it was and only adds
    to the output table, at most one row for each feed row, however
    it ends: this holds of the state it reaches whether it returns or
    a stage of the pipeline stops it, and for any imports. *)
Theorem merger_only_appends
    (dates : list date) (feed : list (list string)) (s : state) :
  fs (snd (for_each feed (merge_row C dates) s)) = fs s
  /\ exists outs,
       written (snd (for_each feed (merge_row C dates) s))
       = (written s ++ outs)%list
       /\ (length outs <= length feed)%nat.
Proof.
  revert s. induction feed as [|row feed IH]; intros s.
  - split; [reflexivity|]. exists []. rewrite app_nil_r.
    split; [reflexivity | cbn; lia].
  - cbn [for_each]. cbv [bind].
    destruct (merge_row_frame dates row s) as (F & out & W & L).
    destruct (merge_row C dates row s) as [[[]|e] s1]; cbn [snd] in F, W.
    + destruct (IH s1) as (F' & outs & W' & L').
      split; [congruence|]. exists (out ++ outs)%list.
      rewrite W', W, app_assoc, List.length_app. split; [reflexivity|].
      cbn [length]. lia.
    + split; [exact F|]. exists out. split; [exact W | cbn [length]; lia].
Qed.

End MergerFrame.

(* ----------------------------------------------------------------- *)
(** ** An exit signal during a lookup *)

Section MergerExitSignal.

Context (C : imports).

(** X20.  An exit signal goes through the Record Merger.  When a row
    is retained, the image of its timestamp exists and a stage of the
    pipeline raises on it something that is not an instance of
    [Exception], the row is not written and the loop stops there with
    that signal: the rows after it are not looked at. *)
Theorem merger_lets_exit_signal_through
    (dates : list date) (c0 : string) (rest : list string)
    (feed : list (list string)) (s : state) (dt : datetime) (e : exn)
    (Hparse : _parse_meteoblue_datetime c0 = Ret (Some dt))
    (Hdate : date_in (dt_date dt) dates = true)
    (Htime : In (hour dt, minute dt) observation_times)
    (Hexists : fs s (image_path dt) <> Missing)
    (Hraise : pipeline_raises C (image_path dt) e)
    (Hsignal : is_Exception e = false) :
  exists l,
    merge_row C dates (c0 :: rest) s
    = (Raise e, mkState (fs s) (written s) (calls s ++ l))
    /\ for_each ((c0 :: rest) :: feed) (merge_row C dates) s
       = (Raise e, mkState (fs s) (written s) (calls s ++ l)).
Proof.
  pose proof (parse_valid c0 dt Hparse) as Hv.
  assert (Hdata : str_in c0 metadata_labels = false).
  { destruct (str_in c0 metadata_labels) eqn:E; [|reflexivity].
    rewrite (metadata_label_not_parsed c0 E) in Hparse. discriminate. }
  assert (Hobs : str_in (strftime dt "%H%M") times = true).
  { rewrite (hhmm_observed dt Hv). apply observed_In. exact Htime. }
  assert (Hmin : minute dt = 0).
  { pose proof Htime as Hm. unfold observation_times in Hm. cbn [In] in Hm.
    repeat (destruct Hm as [Hm | Hm];
            [injection Hm as _ H2; symmetry; exact H2|]).
    contradiction. }
  pose proof (add_minutes_observed (dt_date dt) (hour dt) (minute dt) 0
                Htime ltac:(tauto)) as A0.
  assert (Edt : mkDateTime (dt_date dt) (hour dt) 0 = dt)
    by (destruct dt; cbn in *; subst; reflexivity).
  rewrite Edt in A0.
  replace (mkDateTime (dt_date dt) (hour dt) (minute dt)) with dt in A0
    by (destruct dt; reflexivity).
  apply pipeline_result_raises in Hraise.
  assert (Hrow : exists l,
             merge_row C dates (c0 :: rest) s
             = (Raise e, mkState (fs s) (written s) (calls s ++ l))).
  { rewrite merge_row_data by exact Hdata.
    rewrite Hparse, Hdate, Hobs. cbn [negb].
    change (covers_of C dt) with (collect [0; 5; 10] (lookup C dt)).
    cbn [collect]. unfold lookup at 1. cbv [bind lift stage log].
    rewrite A0. rewrite feature_result. fold (image_path dt).
    cbn [fs written calls parsed]. rewrite Hraise, Hsignal.
    destruct (fs s (image_path dt)); [contradiction| |];
      rewrite <- !app_assoc; eexists; reflexivity. }
  destruct Hrow as [l Hrow]. exists l.
  split; [exact Hrow|].
  cbn [for_each]. cbv [bind]. rewrite Hrow. reflexivity.
Qed.

End MergerExitSignal.

(* ----------------------------------------------------------------- *)
(** ** The Record Merger over a whole feed *)

Section MergerOverFeed.

Context (C : collaborators).

Lemma state_eta (s : state) :
  s = mkState (fs s) (written s ++ [])%list (calls s ++ [])%list.
Proof. destruct s. cbn. rewrite !app_nil_r. reflexivity. Qed.

Lemma lookup_exact (dt t : datetime) (k : Z) (s : state) :
  add_minutes dt k = Ret t ->
  lookup C dt k s
  = (Ret (cover_value C (fs s) (image_path t)),
     mkState (fs s) (written s) (calls s ++ lookup_calls C (fs s) t)%list).
Proof.
  intros Hadd. unfold lookup. cbv [bind lift stage log]. rewrite Hadd.
  rewrite feature_run. cbn [fs written calls].
  unfold cover_value, lookup_calls, image_path. cbv zeta.
  rewrite <- !app_assoc. reflexivity.
Qed.

(** A retained data row, in one equation. *)
Lemma merge_row_in_range (dates : list date) (c0 : string)
      (rest : list string) (s : state) (dt : datetime) :
  _parse_meteoblue_datetime c0 = Ret (Some dt) ->
  date_in (dt_date dt) dates = true ->
  str_in (strftime dt "%H%M") times = true ->
  merge_row C dates (c0 :: rest) s
  = (Ret tt,
     mkState (fs s)
             (written s
              ++ [(c0 :: rest)
                  ++ map (fun k => fmt (cover_value C (fs s)
                                          (image_path (at_minute dt k))))
                         [0; 5; 10]])%list
             (calls s ++ parse_called c0
                      :: lookup_calls C (fs s) (at_minute dt 0)
                      ++ lookup_calls C (fs s) (at_minute dt 5)
                      ++ lookup_calls C (fs s) (at_minute dt 10))%list).
Proof.
  intros Hparse Hin Hobs.
  pose proof (parse_valid c0 dt Hparse) as Hv.
  assert (Hdata : str_in c0 metadata_labels = false).
  { destruct (str_in c0 metadata_labels) eqn:E; [|reflexivity].
    rewrite (metadata_label_not_parsed c0 E) in Hparse. discriminate. }
  assert (Htime : In (hour dt, minute dt) observation_times).
  { apply observed_In. rewrite <- (hhmm_observed dt Hv). exact Hobs. }
  rewrite merge_row_data by exact Hdata.
  rewrite Hparse, Hin, Hobs. cbn [negb].
  destruct dt as [d h mi]. unfold at_minute. cbn [dt_date hour minute] in *.
  pose proof (add_minutes_observed d h mi 0 Htime ltac:(tauto)) as A0.
  pose proof (add_minutes_observed d h mi 5 Htime ltac:(tauto)) as A5.
  pose proof (add_minutes_observed d h mi 10 Htime ltac:(tauto)) as A10.
  change (covers_of C (mkDateTime d h mi))
    with (collect [0; 5; 10] (lookup C (mkDateTime d h mi))).
  cbv [bind collect ret writerow].
  rewrite (lookup_exact _ _ 0 _ A0). cbn [fs written calls].
  rewrite (lookup_exact _ _ 5 _ A5). cbn [fs written calls].
  rewrite (lookup_exact _ _ 10 _ A10). cbn [fs written calls parsed map].
  rewrite <- !app_assoc. reflexivity.
Qed.

Lemma pipeline_calls_inside (path : string) :
  forallb (fun e => negb (acquisition_event e)) (pipeline_calls C path) = true.
Proof.
  unfold pipeline_calls. destruct (load_and_trim C path) as [t|]; cbn;
    [|reflexivity].
  destruct (process_image_rb_ratio C t); reflexivity.
Qed.

Lemma lookup_calls_inside (f : filesystem) (t : datetime) :
  forallb (fun e => negb (acquisition_event e)) (lookup_calls C f t) = true.
Proof.
  unfold lookup_calls. cbv zeta. cbn [forallb acquisition_event negb andb].
  destruct (f _); try reflexivity; apply pipeline_calls_inside.
Qed.

(** What one row does to the state. *)
Lemma merge_row_effect (dates : list date) (row : list string) (s : state) :
  exists out l,
    merge_row C dates row s
    = (Ret tt, mkState (fs s) (written s ++ out)%list (calls s ++ l)%list)
    /\ (if row_kept dates row
        then exists o, out = [o] /\ extended o row
        else out = [])
    /\ forallb (fun e => negb (acquisition_event e)) l = true.
Proof.
  destruct row as [|c0 rest].
  { exists [], []. split; [apply (f_equal (pair (Ret tt))), state_eta|].
    split; reflexivity. }
  cbn [row_kept].
  destruct (str_in c0 metadata_labels) eqn:Hlabel.
  { exists [(c0 :: rest) ++ cover_labels]%list, []. split.
    - unfold merge_row. cbv [bind lift first_cell writerow]. rewrite Hlabel.
      rewrite app_nil_r. reflexivity.
    - split; [|reflexivity]. cbn [orb]. eexists. split; [reflexivity|].
      exists "cloud_cover_t", "cloud_cover_t+5m", "cloud_cover_t+10m".
      reflexivity. }
  cbn [orb].
  destruct (_parse_meteoblue_datetime c0) as [[dt|]|e] eqn:Hparse.
  - destruct (date_in (dt_date dt) dates) eqn:Hin;
      [destruct (str_in (strftime dt "%H%M") times) eqn:Hobs|]; cbn [andb].
    + rewrite (merge_row_in_range dates c0 rest s dt Hparse Hin Hobs).
      eexists. eexists. split; [reflexivity|]. split.
      * eexists. split; [reflexivity|]. cbn [map].
        eexists _, _, _. reflexivity.
      * cbn [forallb acquisition_event negb andb].
        rewrite !forallb_app, !lookup_calls_inside. reflexivity.
    + rewrite merge_row_data, Hparse, Hin, Hobs by exact Hlabel. cbn [negb].
      exists [], [parse_called c0]. unfold parsed. rewrite app_nil_r.
      repeat split.
    + rewrite merge_row_data, Hparse, Hin by exact Hlabel. cbn [negb].
      exists [], [parse_called c0]. unfold parsed. rewrite app_nil_r.
      repeat split.
  - rewrite merge_row_data, Hparse by exact Hlabel.
    exists [], [parse_called c0]. unfold parsed. rewrite app_nil_r.
    repeat split.
  - rewrite parse_returns in Hparse. discriminate.
Qed.

(** What the loop over the feed does to the state. *)
Lemma merge_rows_effect (dates : list date) (feed : list (list string)) :
  forall s,
  exists outs l,
    for_each feed (merge_row C dates) s
    = (Ret tt, mkState (fs s) (written s ++ outs)%list (calls s ++ l)%list)
    /\ Forall2 extended outs (filter (row_kept dates) feed)
    /\ forallb (fun e => negb (acquisition_event e)) l = true.
Proof.
  induction feed as [|row feed IH]; intros s.
  - exists [], []. split; [apply (f_equal (pair (Ret tt))), state_eta|].
    split; [constructor | reflexivity].
  - destruct (merge_row_effect dates row s) as (out & l & Hrow & Hout & Hl).
    destruct (IH (mkState (fs s) (written s ++ out)%list (calls s ++ l)%list))
      as (outs & l' & Hrest & Houts & Hl').
    exists (out ++ outs)%list, (l ++ l')%list.
    cbn [for_each]. cbv [bind]. rewrite Hrow, Hrest. cbn [fs written calls].
    rewrite !app_assoc. split; [reflexivity|]. split.
    + cbn [filter]. destruct (row_kept dates row).
      * destruct Hout as (o & -> & Ho). constructor; assumption.
      * subst out. exact Houts.
    + rewrite forallb_app, Hl, Hl'. reflexivity.
Qed.


(** X5.  The merger makes no acquisition call: among the calls it
    adds there is no [os.makedirs], no [os.listdir] and no call to the
    downloader. *)
Theorem merger_makes_no_acquisition_call
    (dates : list date) (feed : list (list string)) (s : state) :
  exists l,
    calls (snd (for_each feed (merge_row C dates) s)) = (calls s ++ l)%list
    /\ (forall e, In e l ->
          (forall p, e <> os_makedirs_called p)
          /\ (forall p, e <> os_listdir_called p)
          /\ (forall a b, e <> download_sky_camera_images_called a b)).
Proof.
  destruct (merge_rows_effect dates feed s) as (outs & l & Hrun & _ & Hl).
  exists l. rewrite Hrun. split; [reflexivity|].
  intros e He. rewrite forallb_forall in Hl. specialize (Hl e He).
  repeat split; intros; intros ->; discriminate.
Qed.


End MergerOverFeed.

(* ----------------------------------------------------------------- *)
(** ** The output table as a function of the feed *)

Section MergerOutput.

Context (C : collaborators).




End MergerOutput.

(* ----------------------------------------------------------------- *)
(** ** The Acquisition Trigger without images *)

Section AcquisitionTriggerDownloads.

Context (C : collaborators).

(** X7.  When the image directory is missing, or holds no name ending
    in [.jpg], the trigger calls the downloader exactly once, after
    [os.makedirs] and [os.listdir], with the two dates in [YYYY-MM-DD]
    form and on a file system where the directory exists; what the
    downloader returns or raises is the trigger's result, and the file
    system it leaves is the trigger's. *)
Theorem trigger_downloads_once
    (start_d end_d : date) (s : state)
    (Hnone : fs s SKY_IMAGE_DIR = Missing
             \/ exists names,
                  fs s SKY_IMAGE_DIR = Directory names
                  /\ forall name, In name names ->
                                  endswith (lower name) ".jpg" = false) :
  let r := download_sky_camera_images C (isoformat start_d) (isoformat end_d)
             (with_image_dir (fs s)) in
  _ensure_images_downloaded C start_d end_d s
  = (fst r,
     mkState (snd r) (written s)
             (calls s ++ [os_makedirs_called SKY_IMAGE_DIR;
                          os_listdir_called SKY_IMAGE_DIR;
                          download_sky_camera_images_called
                            (isoformat start_d) (isoformat end_d)]))
  /\ (exists names, with_image_dir (fs s) SKY_IMAGE_DIR = Directory names).
Proof.
  cbv zeta. unfold with_image_dir.
  unfold _ensure_images_downloaded, os_makedirs, os_listdir, download,
    try_catch, bind, log, lift, ret; cbn.
  destruct Hnone as [Hm | (names & Hd & Hno)].
  - rewrite Hm. cbn. unfold set_node at 1. cbn.
    destruct (download_sky_camera_images C _ _ _) as [r f]. cbn.
    rewrite <- !app_assoc. split; [reflexivity|]. exists []. reflexivity.
  - rewrite Hd. cbn. rewrite Hd. cbn.
    assert (Hany : existsb is_image_name names = false).
    { destruct (existsb is_image_name names) eqn:E; [|reflexivity].
      apply existsb_exists in E. destruct E as (name & Hin & Himg).
      unfold is_image_name in Himg. rewrite (Hno name Hin) in Himg.
      discriminate. }
    rewrite Hany. cbn.
    destruct (download_sky_camera_images C _ _ _) as [r f]. cbn.
    rewrite <- !app_assoc. split; [reflexivity|]. exists names. reflexivity.
Qed.

(** X8.  When the image directory's path names a regular file,
    [os.makedirs] raises [FileExistsError] and the trigger lets it
    through: the directory is not listed, the downloader is not called
    and nothing else changes. *)
Theorem trigger_refuses_regular_file
    (start_d end_d : date) (s : state)
    (Hfile : fs s SKY_IMAGE_DIR = RegularFile) :
  _ensure_images_downloaded C start_d end_d s
  = (Raise FileExistsError,
     mkState (fs s) (written s)
             (calls s ++ [os_makedirs_called SKY_IMAGE_DIR])).
Proof.
  unfold _ensure_images_downloaded, os_makedirs, os_listdir, download,
    try_catch, bind, log, lift, ret; cbn.
  rewrite Hfile. reflexivity.
Qed.

End AcquisitionTriggerDownloads.

(* ----------------------------------------------------------------- *)
(** ** Dates written and read in ISO form *)

Lemma is_digit_digit_char_mod (n : Z) : is_digit (digit_char (n mod 10)) = true.
Proof. apply is_digit_digit_char, mod10_digit. Qed.

Lemma date_of_iso_isoformat (d : date) :
  valid_date d = true -> date_of_iso (isoformat d) = Ret d.
Proof.
  intros Hvalid.
  pose proof (valid_date_bounds d Hvalid) as (Hy & Hm & Hd).
  pose proof (days_in_month_le_31 (year d) (month d)) as Hdim.
  unfold date_of_iso.
  change (take 4 (isoformat d)) with (fixed_digits 4 (year d)).
  change (slice 5 7 (isoformat d)) with (fixed_digits 2 (month d)).
  change (drop 8 (isoformat d)) with (fixed_digits 2 (day d)).
  rewrite !py_int_fixed_digits by (cbn; lia). cbn [obind].
  unfold make_date. destruct d as [y m dd]. cbn [year month day] in *.
  rewrite Hvalid. reflexivity.
Qed.

(** X9.  The form in which the trigger hands a date to the downloader
    is the form [main] reads its two bounds in: the [YYYY-MM-DD] text
    of a valid date has ten characters, and reading it back with
    [date(int(s[:4]), int(s[5:7]), int(s[8:]))] gives that date. *)
Theorem iso_date_roundtrip (d : date) (Hvalid : valid_date d = true) :
  String.length (isoformat d) = 10%nat
  /\ date_of_iso (isoformat d) = Ret d.
Proof.
  split; [reflexivity | apply date_of_iso_isoformat; exact Hvalid].
Qed.

(* ----------------------------------------------------------------- *)
(** ** Filenames and image paths *)

(** The text before the first hyphen: two strings of digits, each
    followed by a hyphen, that go on to spell the same text are the
    same, and so is what follows them. *)
Lemma digits_hyphen_split (a b r1 r2 : string) :
  all_chars is_digit a = true -> all_chars is_digit b = true ->
  a ++ String "-" r1 = b ++ String "-" r2 -> a = b /\ r1 = r2.
Proof.
  revert b. induction a as [|c a IH]; intros [|c' b] Ha Hb E; cbn in *.
  - injection E as E. tauto.
  - exfalso. injection E as Ec _. subst c'. discriminate.
  - exfalso. injection E as Ec _. subst c. discriminate.
  - injection E as Ec E. subst c'.
    apply andb_true_iff in Ha, Hb.
    destruct (IH b (proj2 Ha) (proj2 Hb) E) as [-> ->]. tauto.
Qed.

(** The fixed-width part of a filename, after the year and its
    hyphen. *)
Lemma filename_fields (mo d h mi : Z) :
  let r := fixed_digits 2 mo ++ "-" ++ fixed_digits 2 d ++ "-"
           ++ fixed_digits 2 h ++ "-" ++ fixed_digits 2 mi ++ "-0.jpg" in
  take 2 r = fixed_digits 2 mo
  /\ slice 3 5 r = fixed_digits 2 d
  /\ slice 6 8 r = fixed_digits 2 h
  /\ slice 9 11 r = fixed_digits 2 mi.
Proof. repeat split; reflexivity. Qed.

Lemma ret_eq {A} (x y : A) : Ret x = Ret y -> x = y.
Proof. congruence. Qed.

(** X10.  The Artifact Locator gives different instants different
    filenames: no two valid datetimes share an image file. *)
Theorem locator_injective (t1 t2 : datetime)
    (Hvalid1 : valid_datetime t1 = true)
    (Hvalid2 : valid_datetime t2 = true)
    (Hdiff : t1 <> t2) :
  _sky_image_filename t1 <> _sky_image_filename t2.
Proof.
  intros E. apply Hdiff.
  pose proof (valid_datetime_bounds t1 Hvalid1) as B1.
  pose proof (valid_datetime_bounds t2 Hvalid2) as B2.
  rewrite !filename_text in E.
  apply digits_hyphen_split in E; try apply decimal_digits.
  destruct E as [EY ER].
  destruct (year_text (year (dt_date t1))) as (Y1 & _); [lia|].
  destruct (year_text (year (dt_date t2))) as (Y2 & _); [lia|].
  rewrite EY, Y2 in Y1. apply ret_eq in Y1.
  destruct (filename_fields (month (dt_date t1)) (day (dt_date t1))
              (hour t1) (minute t1)) as (M1 & D1 & H1 & I1).
  destruct (filename_fields (month (dt_date t2)) (day (dt_date t2))
              (hour t2) (minute t2)) as (M2 & D2 & H2 & I2).
  cbv zeta in M1, D1, H1, I1, M2, D2, H2, I2.
  rewrite ER in M1, D1, H1, I1.
  rewrite M2 in M1. rewrite D2 in D1. rewrite H2 in H1. rewrite I2 in I1.
  apply (f_equal py_int) in M1, D1, H1, I1.
  rewrite !py_int_fixed_digits in M1, D1, H1, I1 by (cbn; lia).
  apply ret_eq in M1, D1, H1, I1.
  destruct t1 as [[y1 m1 d1] h1 i1], t2 as [[y2 m2 d2] h2 i2].
  cbn in *. congruence.
Qed.

Lemma prefix_slash_digit (c : ascii) (r : string) :
  is_digit c = true -> String.prefix "/" (String c r) = false.
Proof.
  intros H.
  change (String.prefix "/" (String c r))
    with (match ascii_dec "/" c with
          | left _ => String.prefix "" r
          | right _ => false
          end).
  destruct (ascii_dec "/" c) as [<- | _]; [discriminate | reflexivity].
Qed.

(** X11.  The path handed to the Feature Computer always lies in the
    image directory: joining the directory with a filename of the
    locator gives the directory, a slash and the filename.  For a
    valid datetime from the year 1000 on the path has 40 characters. *)
Theorem image_path_in_directory (t : datetime) :
  os_path_join SKY_IMAGE_DIR (_sky_image_filename t)
  = "sky_camera_images/" ++ _sky_image_filename t
  /\ (valid_datetime t = true -> 1000 <= year (dt_date t) ->
      String.length (os_path_join SKY_IMAGE_DIR (_sky_image_filename t))
      = 40%nat).
Proof.
  assert (E : os_path_join SKY_IMAGE_DIR (_sky_image_filename t)
              = "sky_camera_images/" ++ _sky_image_filename t).
  { unfold os_path_join, startswith. rewrite filename_text.
    destruct (decimal_digits (year (dt_date t))) as [Hd Hne].
    destruct (decimal (year (dt_date t))) as [|c r]; [contradiction|].
    cbn in Hd. apply andb_true_iff in Hd. cbn [append].
    rewrite prefix_slash_digit by apply Hd.
    reflexivity. }
  split; [exact E|]. intros Hv Hy. rewrite E, filename_text.
  pose proof (valid_datetime_bounds t Hv) as Hb.
  destruct (year_text (year (dt_date t))) as (_ & Yfour & _); [lia|].
  rewrite (Yfour Hy). reflexivity.
Qed.

(* ----------------------------------------------------------------- *)
(** ** Blank cells *)

Lemma append_nonempty_r (a b : string) : b <> "" -> a ++ b <> "".
Proof. destruct a; cbn; [tauto | discriminate]. Qed.

(** X12.  A blank cell always means an absent result: [fmt] gives the
    empty string for the absent result and for no float at all. *)
Theorem blank_cell_iff_absent (v : option float) : fmt v = "" <-> v = None.
Proof.
  split; [|intros ->; reflexivity].
  destruct v as [x|]; [|reflexivity]. intros H. exfalso. revert H. cbn [fmt].
  destruct x as [s|s| |s m e]; cbn [format_6f].
  - destruct s; discriminate.
  - destruct s; discriminate.
  - discriminate.
  - cbv zeta. apply append_nonempty_r, append_nonempty_r. discriminate.
Qed.

(* ----------------------------------------------------------------- *)
(** ** A range that ends on the last date *)

Lemma date_range_to_last (n : nat) :
  forall cur,
    (steps_left cur < n)%nat -> valid_date cur = true ->
    date_range cur last_date = Raise OverflowError.
Proof.
  induction n as [|n IH]; intros cur Hn Hv; [lia|].
  rewrite date_range_step.
  replace (date_leb cur last_date) with true
    by (symmetry; apply date_leb_le, date_le_last; exact Hv).
  destruct (next_day cur) as [nxt|e] eqn:Hnext.
  - destruct (next_day_valid cur nxt Hv Hnext) as [Hvn _].
    pose proof (next_day_steps_left cur nxt Hnext).
    rewrite (IH nxt) by (lia || assumption). reflexivity.
  - destruct (next_day_overflow cur e Hv Hnext) as [_ ->]. reflexivity.
Qed.

(** X13.  Whatever the start date, a range that ends on 9999-12-31
    produces no list: the loop reaches the last date, appends it and
    raises [OverflowError] on the step after. *)
Theorem date_range_to_last_date_raises (start_d : date)
    (Hvalid : valid_date start_d = true) :
  date_range start_d (mkDate 9999 12 31) = Raise OverflowError.
Proof.
  apply (date_range_to_last (S (steps_left start_d))); [lia | exact Hvalid].
Qed.

(* ----------------------------------------------------------------- *)
(** ** The strings the Timestamp Parser accepts *)

Lemma lit_matches_T (c : ascii) :
  lit_matches "T" c = true <-> c = "T"%char \/ c = "t"%char.
Proof.
  split.
  - unfold lit_matches. intros H. apply Ascii.eqb_eq in H.
    change (lower_char "T") with "t"%char in H.
    unfold lower_char in H. cbv zeta in H.
    pose proof (code_bound c) as Hc.
    destruct (((65 <=? code c) && (code c <=? 90))
              || ((192 <=? code c) && (code c <=? 222)
                  && negb (code c =? 215))) eqn:E.
    + left. apply code_inj. apply (f_equal code) in H.
      change (code "t") with 116 in H. change (code "T") with 84.
      destruct (Z.leb_spec 65 (code c)), (Z.leb_spec (code c) 90),
        (Z.leb_spec 192 (code c)), (Z.leb_spec (code c) 222);
        cbn in E; try discriminate; rewrite code_chr in H; lia.
    + right. exact H.
  - intros [-> | ->]; reflexivity.
Qed.

Lemma rmatch_literal_inv (c : ascii) (s x rest : string) :
  In (x, rest) (rmatch (Lit c) s) ->
  exists c', x = String c' EmptyString /\ lit_matches c c' = true.
Proof.
  intros H. destruct s as [|c1 s]; cbn in H; [tauto|].
  destruct (lit_matches c c1) eqn:E; cbn in H; [|tauto].
  destruct H as [[= <- <-] | []]. exists c1. split; [reflexivity | exact E].
Qed.

Lemma make_datetime_inv (y m d h mi : Z) (t : datetime) :
  make_datetime y m d h mi = Ret t ->
  t = mkDateTime (mkDate y m d) h mi /\ valid_datetime t = true.
Proof.
  unfold make_datetime, make_date.
  destruct (valid_date (mkDate y m d)) eqn:Hd; cbn [obind]; [|discriminate].
  destruct (valid_time h mi) eqn:Ht; [|discriminate].
  intros [= <-]. split; [reflexivity|].
  unfold valid_datetime. cbn. rewrite Hd, Ht. reflexivity.
Qed.

(** Everything [strptime] tells about thirteen characters it accepts. *)
Lemma strptime_stamp_inv (data : string) (t : datetime) :
  String.length data = 13%nat ->
  strptime data "%Y%m%dT%H%M" = Ret t ->
  exists x1 x2 x3 c x5 x6 ye mo da ho mi,
    data = x1 ++ x2 ++ x3 ++ String c EmptyString ++ x5 ++ x6
    /\ (String.length x1 = 4 /\ String.length x2 = 2 /\ String.length x3 = 2
        /\ String.length x5 = 2 /\ String.length x6 = 2)%nat
    /\ (all_chars is_digit x1 = true /\ all_chars is_digit x2 = true
        /\ all_chars is_digit x5 = true /\ all_chars is_digit x6 = true)
    /\ lit_matches "T" c = true
    /\ (py_int x1 = Ret ye /\ py_int x2 = Ret mo /\ py_int x3 = Ret da
        /\ py_int x5 = Ret ho /\ py_int x6 = Ret mi)
    /\ make_datetime ye mo da ho mi = Ret t.
Proof.
  intros Hlen H. unfold strptime in H. rewrite pieces_stamp in H.
  change (repeated_field stamp_pieces) with false in H. cbv iota in H.
  destruct (match_pieces stamp_pieces data) as [|[m rest] tl] eqn:Hm;
    [discriminate|].
  destruct (String.eqb_spec rest "") as [->|]; [|discriminate].
  cbn [negb] in H.
  assert (Hin : In (m, "") (match_pieces stamp_pieces data))
    by (rewrite Hm; left; reflexivity).
  clear Hm. apply match_pieces_sound in Hin. unfold stamp_pieces in Hin.
  repeat match goal with
         | H : pieces_match (_ :: _) _ _ _ |- _ => inversion H; subst; clear H
         | H : pieces_match [] _ _ _ |- _ => inversion H; subst; clear H
         end.
  cbn [int_field found directive_eqb] in H.
  repeat match goal with
         | H : In (?x, ?r) (rmatch (piece_re (Literal _)) ?s) |- _ =>
             let S := fresh "S" in
             pose proof (rmatch_splits _ _ _ _ H) as S; cbn [piece_re] in H;
             apply rmatch_literal_inv in H; destruct H as (c & -> & Hc);
             subst s
         | H : In (?x, ?r) (rmatch (piece_re (Field _)) ?s) |- _ =>
             let S := fresh "S" in
             pose proof (rmatch_splits _ _ _ _ H) as S; cbn [piece_re] in H;
             first [ apply rmatch_year in H
                   | apply rmatch_day in H
                   | apply rmatch_digits in H; [|tauto] ];
             subst s
         end.
  rewrite !length_app in Hlen. cbn in Hlen.
  repeat match goal with H : _ /\ _ |- _ => destruct H end.
  repeat match type of H with
         | obind ?o _ = _ =>
             let E := fresh "E" in
             destruct o eqn:E; cbn [obind] in H; [|discriminate]
         end.
  rewrite append_empty_r.
  do 11 eexists. split; [reflexivity|].
  split; [repeat split; lia|].
  split; [repeat split; assumption|].
  split; [exact Hc|].
  split; [repeat split; eassumption|]. exact H.
Qed.

Lemma drop_length (n : nat) (s : string) :
  String.length (drop n s) = (String.length s - n)%nat.
Proof.
  revert s. induction n as [|n IH]; intros [|c s]; cbn; auto.
Qed.

Lemma append_inv_length (a b a' b' : string) :
  a ++ b = a' ++ b' -> String.length a = String.length a' ->
  a = a' /\ b = b'.
Proof.
  revert a'. induction a as [|c a IH]; intros [|c' a'] H L; cbn in *;
    try discriminate.
  - auto.
  - injection H as -> H. destruct (IH a' H) as [-> ->]; [lia|]. auto.
Qed.

Lemma field_length (cell : string) (pos w : nat) :
  (pos + w <= String.length cell)%nat ->
  String.length (take w (drop pos cell)) = w.
Proof. intros H. rewrite take_length, drop_length. lia. Qed.

Lemma rmatch_literal_head (c x : ascii) (r : string) :
  lit_matches c x = true ->
  rmatch (piece_re (Literal c)) (String x r) = [(String x EmptyString, r)].
Proof. intros H. cbn. rewrite H. reflexivity. Qed.

(** [strptime] on a stamp whose separator is [T] in either case. *)
Lemma strptime_stamp_sep (y mo d h mi : Z) (c : ascii) :
  lit_matches "T" c = true ->
  valid_datetime (mkDateTime (mkDate y mo d) h mi) = true ->
  strptime (fixed_digits 4 y ++ fixed_digits 2 mo ++ fixed_digits 2 d
            ++ String c EmptyString ++ fixed_digits 2 h ++ fixed_digits 2 mi)
           "%Y%m%dT%H%M"
  = Ret (mkDateTime (mkDate y mo d) h mi).
Proof.
  intros Hc Hv. pose proof (valid_datetime_bounds _ Hv) as Hb.
  cbn [dt_date year month day hour minute] in Hb.
  destruct Hb as (Hy & Hmo & Hd & Hh & Hmi).
  destruct (rmatch_minute_head mi "" Hmi) as [t6 H6].
  destruct (rmatch_hour_head h (fixed_digits 2 mi ++ "") Hh) as [t5 H5].
  destruct (rmatch_day_head d
              (String c (fixed_digits 2 h ++ fixed_digits 2 mi ++ "")) Hd)
    as [t3 H3].
  destruct (rmatch_month_head mo
              (fixed_digits 2 d
               ++ String c (fixed_digits 2 h ++ fixed_digits 2 mi ++ "")) Hmo)
    as [t2 H2].
  destruct (match_pieces_head (Field dM) [] _ _ _ _ [] "" [] H6 eq_refl)
    as [u6 M6].
  destruct (match_pieces_head (Field dH) _ _ _ _ _ _ _ _ H5 M6) as [u5 M5].
  destruct (match_pieces_head (Literal "T") _ _ _ _ _ _ _ _
              (rmatch_literal_head "T" c _ Hc) M5) as [u4 M4].
  destruct (match_pieces_head (Field dd) _ _ _ _ _ _ _ _ H3 M4) as [u3 M3].
  destruct (match_pieces_head (Field dm) _ _ _ _ _ _ _ _ H2 M3) as [u2 M2].
  destruct (match_pieces_head (Field dY) _ _ _ _ _ _ _ _
              (rmatch_year_head y _) M2) as [u1 M1].
  unfold strptime. rewrite pieces_stamp.
  change (repeated_field stamp_pieces) with false. cbv iota.
  rewrite <- (append_empty_r (fixed_digits 2 mi)) at 1.
  fold stamp_pieces in M1.
  change (String c "" ++ fixed_digits 2 h ++ fixed_digits 2 mi ++ "")
    with (String c (fixed_digits 2 h ++ fixed_digits 2 mi ++ "")).
  rewrite M1.
  cbn [String.eqb negb int_field found directive_eqb].
  rewrite !py_int_fixed_digits by (cbn; lia). cbn [obind].
  unfold make_datetime, make_date.
  unfold valid_datetime in Hv. cbn [dt_date hour minute] in Hv.
  apply andb_true_iff in Hv. destruct Hv as [-> ->]. reflexivity.
Qed.

Lemma parse_stamp_sep (cell : string) (y mo d h mi : Z) (c : ascii) :
  lit_matches "T" c = true ->
  valid_datetime (mkDateTime (mkDate y mo d) h mi) = true ->
  take 13 cell
  = fixed_digits 4 y ++ fixed_digits 2 mo ++ fixed_digits 2 d
    ++ String c EmptyString ++ fixed_digits 2 h ++ fixed_digits 2 mi ->
  _parse_meteoblue_datetime cell
  = Ret (Some (mkDateTime (mkDate y mo d) h mi)).
Proof.
  intros Hc Hv E.
  assert (Hlen : 13 <= len cell).
  { apply length_13_len. rewrite E. reflexivity. }
  rewrite parse_returns.
  replace (String.eqb cell "" || (len cell <? 13)) with false.
  2:{ symmetry. apply orb_false_iff. split.
      - destruct cell; [cbn in Hlen; lia | reflexivity].
      - apply Z.ltb_ge. exact Hlen. }
  rewrite <- (take_take 8 13 cell) by lia. rewrite E.
  rewrite (strptime_stamp_sep y mo d h mi c Hc Hv).
  replace (take 8 (fixed_digits 4 y ++ fixed_digits 2 mo ++ fixed_digits 2 d
                   ++ String c "" ++ fixed_digits 2 h ++ fixed_digits 2 mi))
    with (fixed_digits 4 y ++ fixed_digits 2 mo ++ fixed_digits 2 d)
    by reflexivity.
  rewrite py_int_digits;
    [|rewrite !all_chars_app, !fixed_digits_all_digits; reflexivity
     |unfold len; rewrite !length_app, !fixed_digits_length; cbn; lia].
  destruct (int_digits 0 false _) eqn:Ei; [reflexivity|].
  exfalso. revert Ei. cbn.
  repeat (rewrite digit_val_digit_char by apply mod10_digit; cbn).
  discriminate.
Qed.

Lemma accepted_parse (cell : string) (t : datetime) :
  accepted_instant cell = Some t ->
  _parse_meteoblue_datetime cell = Ret (Some t).
Proof.
  unfold accepted_instant.
  destruct (digits_at cell 0 4) as [y|] eqn:Ey; [|discriminate].
  destruct (digits_at cell 4 2) as [mo|] eqn:Emo; [|discriminate].
  destruct (digits_at cell 6 2) as [d|] eqn:Ed; [|discriminate].
  destruct (digits_at cell 9 2) as [h|] eqn:Eh; [|discriminate].
  destruct (digits_at cell 11 2) as [mi|] eqn:Emi; [|discriminate].
  cbv zeta.
  destruct (valid_datetime _) eqn:Hv; [|rewrite andb_false_r; discriminate].
  rewrite andb_true_r.
  apply digits_at_4 in Ey. apply digits_at_2 in Emo, Ed, Eh, Emi.
  destruct Ey as [Fy _], Emo as [Fmo _], Ed as [Fd _], Eh as [Fh _],
    Emi as [Fmi _].
  intros H.
  assert (Hsep : exists c, take 1 (drop 8 cell) = String c EmptyString
                           /\ lit_matches "T" c = true).
  { destruct (String.eqb_spec (take 1 (drop 8 cell)) "T") as [E|_].
    - exists "T"%char. split; [exact E | reflexivity].
    - destruct (String.eqb_spec (take 1 (drop 8 cell)) "t") as [E|_];
        [|discriminate].
      exists "t"%char. split; [exact E | reflexivity]. }
  destruct Hsep as (c & Hsep & Hc).
  assert (Ht : t = mkDateTime (mkDate y mo d) h mi).
  { destruct (_ || _) in H; [congruence | discriminate]. }
  subst t. apply (parse_stamp_sep cell y mo d h mi c Hc Hv).
  rewrite take_13_fields, Fy, Fmo, Fd, Fh, Fmi, Hsep. reflexivity.
Qed.

Lemma digits_at_text (cell : string) (pos w : nat) (x : string) (v : Z) :
  take w (drop pos cell) = x -> String.length x = w ->
  all_chars is_digit x = true -> py_int x = Ret v ->
  Z.of_nat w <= 4300 ->
  digits_at cell pos w = Some v.
Proof.
  intros E L D P B. unfold digits_at. cbv zeta. rewrite E, L, D.
  rewrite Nat.eqb_refl. cbn [andb].
  rewrite (py_int_digits x D) in P by (unfold len; rewrite L; exact B).
  destruct (int_digits 0 false x); congruence.
Qed.

Lemma parse_accepted (cell : string) (t : datetime) :
  _parse_meteoblue_datetime cell = Ret (Some t) ->
  accepted_instant cell = Some t.
Proof.
  intros Hparse.
  pose proof (parse_date_part_digits cell t Hparse) as Hdigits.
  rewrite parse_returns in Hparse.
  destruct (String.eqb cell "") eqn:E0; cbn [orb] in Hparse; [discriminate|].
  destruct (len cell <? 13) eqn:Elen; [discriminate|].
  destruct (py_int (take 8 cell)) as [n|] eqn:Eint; [|discriminate].
  destruct (strptime (take 13 cell) "%Y%m%dT%H%M") as [t'|] eqn:Ep;
    [|discriminate].
  injection Hparse as ->.
  destruct (strptime_stamp_inv _ _ (len_take_13 cell Elen) Ep)
    as (x1 & x2 & x3 & c & x5 & x6 & ye & mo & da & ho & mi
        & Hd & (L1 & L2 & L3 & L5 & L6) & (D1 & D2 & D5 & D6) & Hc
        & (P1 & P2 & P3 & P5 & P6) & Hmk).
  assert (Hlen : (13 <= String.length cell)%nat).
  { apply Z.ltb_ge in Elen. unfold len in Elen. lia. }
  rewrite take_13_fields in Hd.
  apply append_inv_length in Hd; [|rewrite field_length; lia].
  destruct Hd as [F1 Hd].
  apply append_inv_length in Hd; [|rewrite field_length; lia].
  destruct Hd as [F2 Hd].
  apply append_inv_length in Hd; [|rewrite field_length; lia].
  destruct Hd as [F3 Hd].
  apply append_inv_length in Hd; [|rewrite field_length; cbn; lia].
  destruct Hd as [F4 Hd].
  apply append_inv_length in Hd; [|rewrite field_length; lia].
  destruct Hd as [F5 F6].
  assert (D3 : all_chars is_digit x3 = true).
  { change 8%nat with (4 + (2 + 2))%nat in Hdigits.
    rewrite !take_split, !drop_drop in Hdigits.
    change (take 4 cell) with (take 4 (drop 0 cell)) in Hdigits.
    rewrite F1 in Hdigits. cbn [Nat.add] in Hdigits.
    rewrite F2, F3, !all_chars_app in Hdigits.
    apply andb_true_iff in Hdigits. destruct Hdigits as [_ Hdigits].
    apply andb_true_iff in Hdigits. tauto. }
  destruct (make_datetime_inv _ _ _ _ _ _ Hmk) as [-> Hv].
  unfold accepted_instant.
  rewrite (digits_at_text cell 0 4 x1 ye F1 L1 D1 P1) by (cbn; lia).
  rewrite (digits_at_text cell 4 2 x2 mo F2 L2 D2 P2) by (cbn; lia).
  rewrite (digits_at_text cell 6 2 x3 da F3 L3 D3 P3) by (cbn; lia).
  rewrite (digits_at_text cell 9 2 x5 ho F5 L5 D5 P5) by (cbn; lia).
  rewrite (digits_at_text cell 11 2 x6 mi F6 L6 D6 P6) by (cbn; lia).
  cbv zeta. rewrite F4, Hv, andb_true_r.
  apply lit_matches_T in Hc. destruct Hc as [-> | ->]; reflexivity.
Qed.

(** X14.  The Timestamp Parser in one equation, on strings of code
    points below 256.  Among these it accepts exactly the strings
    whose first 13 characters are four digits of year, two of month,
    two of day, the letter [T] in upper or lower case, two digits of
    hour and two of minute that form a valid date and time, and it
    returns that instant; every other such string gives absent. *)
Theorem parser_accepts_exactly (cell : string) :
  _parse_meteoblue_datetime cell = Ret (accepted_instant cell).
Proof.
  destruct (accepted_instant cell) as [t|] eqn:Ha.
  - apply accepted_parse. exact Ha.
  - rewrite parse_returns. f_equal.
    match goal with |- ?r = None => destruct r as [t|] eqn:Hr end;
      [|reflexivity].
    assert (Hp : _parse_meteoblue_datetime cell = Ret (Some t))
      by (rewrite parse_returns, Hr; reflexivity).
    rewrite (parse_accepted cell t Hp) in Ha. discriminate.
Qed.

Example parser_lower_case_separator :
  _parse_meteoblue_datetime "20190523t0900"
  = Ret (Some (mkDateTime (mkDate 2019 5 23) 9 0)).
Proof. reflexivity. Qed.

(* ----------------------------------------------------------------- *)
(** ** The digit pre-filter *)

Lemma lstrip_spaces (w b : string) :
  all_chars is_space w = true -> lstrip (w ++ b) = lstrip b.
Proof.
  induction w as [|c w IH]; cbn; [reflexivity|].
  intros H. apply andb_true_iff in H. destruct H as [-> H]. apply IH, H.
Qed.

Lemma lstrip_srev_spaces (w acc : string) :
  all_chars is_space w = true -> lstrip (srev_onto w acc) = lstrip acc.
Proof.
  revert acc. induction w as [|c w IH]; intros acc; cbn; [reflexivity|].
  intros H. apply andb_true_iff in H. destruct H as [Hc H].
  rewrite IH by exact H. cbn. rewrite Hc. reflexivity.
Qed.

Lemma lstrip_no_space (s : string) :
  all_chars (fun c => negb (is_space c)) s = true -> lstrip s = s.
Proof.
  destruct s as [|c s]; cbn; [reflexivity|].
  intros H. apply andb_true_iff in H. destruct H as [H _].
  apply negb_true_iff in H. rewrite H. reflexivity.
Qed.

(** White space around a text without white space is what [strip]
    removes. *)
Lemma strip_padding (w1 body w2 : string) :
  all_chars is_space w1 = true -> all_chars is_space w2 = true ->
  all_chars (fun c => negb (is_space c)) body = true ->
  strip (w1 ++ body ++ w2) = body.
Proof.
  intros H1 H2 Hb. unfold strip, rstrip.
  rewrite lstrip_spaces by exact H1.
  assert (E : lstrip (srev (lstrip (body ++ w2))) = srev body).
  { destruct body as [|c body].
    - cbn [append]. unfold srev.
      rewrite <- (append_empty_r w2) at 1. rewrite lstrip_spaces by exact H2.
      cbn. reflexivity.
    - assert (Hl : lstrip (String c body ++ w2) = String c body ++ w2).
      { cbn. cbn in Hb. apply andb_true_iff in Hb. destruct Hb as [Hc _].
        apply negb_true_iff in Hc. rewrite Hc. reflexivity. }
      rewrite Hl. unfold srev. rewrite srev_onto_app.
      rewrite lstrip_srev_spaces by exact H2.
      apply lstrip_no_space. rewrite all_chars_srev_onto, Hb. reflexivity. }
  rewrite E. apply srev_involutive.
Qed.

Lemma int_digits_digits (s : string) (acc : Z) (prev : bool) :
  all_chars is_digit s = true -> s <> EmptyString ->
  exists n, int_digits acc prev s = Some n.
Proof.
  revert acc prev. induction s as [|c s IH]; intros acc prev H Hne;
    [contradiction|].
  cbn in H. apply andb_true_iff in H. destruct H as [Hc H].
  cbn. destruct (digit_val_some c Hc) as [-> _].
  destruct s as [|c' s']; [cbn; eauto|]. apply IH; [exact H | discriminate].
Qed.

Lemma digits_no_space (s : string) :
  all_chars is_digit s = true ->
  all_chars (fun c => negb (is_space c)) s = true.
Proof.
  induction s as [|c s IH]; cbn; [reflexivity|].
  intros H. apply andb_true_iff in H. destruct H as [Hc H].
  rewrite (is_digit_not_space c Hc), IH by exact H. reflexivity.
Qed.

Lemma digit_count_digits (s : string) :
  all_chars is_digit s = true -> digit_count s = len s.
Proof.
  unfold len. induction s as [|c s IH]; [reflexivity|].
  cbn [all_chars digit_count String.length]. intros H.
  apply andb_true_iff in H. destruct H as [-> H]. rewrite (IH H). lia.
Qed.

(** X15.  The digit pre-filter lets more than digits through, and not
    all digits: a non-empty run of digits, with or without a sign in
    front and with any white space around it, is accepted when it has
    at most [MAX_STR_DIGITS] digits and refused when it has more. *)
Theorem represents_int_accepts_padding
    (w1 sign ds w2 : string)
    (Hw1 : all_chars is_space w1 = true)
    (Hw2 : all_chars is_space w2 = true)
    (Hsign : sign = "" \/ sign = "+" \/ sign = "-")
    (Hds : all_chars is_digit ds = true)
    (Hne : ds <> "") :
  represents_int (w1 ++ (sign ++ ds) ++ w2)
  = Ret (len ds <=? MAX_STR_DIGITS).
Proof.
  rewrite represents_int_returns. f_equal. unfold py_int.
  rewrite strip_padding; try assumption.
  2:{ rewrite all_chars_app, (digits_no_space ds Hds), andb_true_r.
      destruct Hsign as [-> | [-> | ->]]; reflexivity. }
  destruct (int_digits_digits ds 0 false Hds Hne) as [n Hn].
  rewrite <- (digit_count_digits ds Hds), Z.leb_antisym.
  destruct Hsign as [-> | [-> | ->]]; cbn [append Ascii.eqb Bool.eqb].
  - destruct ds as [|c ds]; [contradiction|].
    pose proof Hds as Hds'.
    cbn in Hds. apply andb_true_iff in Hds. destruct Hds as [Hc _].
    rewrite (is_digit_not_char c "-" Hc) by (cbn; lia).
    rewrite (is_digit_not_char c "+" Hc) by (cbn; lia).
    rewrite Hn. destruct (MAX_STR_DIGITS <? _); reflexivity.
  - rewrite Hn. destruct (MAX_STR_DIGITS <? _); reflexivity.
  - rewrite Hn. destruct (MAX_STR_DIGITS <? _); reflexivity.
Qed.

Lemma int_digits_chars (s : string) (acc : Z) (prev : bool) (n : Z) :
  int_digits acc prev s = Some n ->
  all_chars (fun c => is_digit c || Ascii.eqb c "_") s = true.
Proof.
  revert acc prev. induction s as [|c s IH]; intros acc prev; cbn;
    [reflexivity|].
  unfold digit_val. destruct (is_digit c); cbn [orb andb].
  - apply IH.
  - destruct (Ascii.eqb c "_"); cbn [andb]; [|discriminate].
    destruct prev; [apply IH | discriminate].
Qed.

Lemma all_chars_weaken (p q : ascii -> bool) (s : string) :
  (forall c, p c = true -> q c = true) ->
  all_chars p s = true -> all_chars q s = true.
Proof.
  intros Hpq. induction s as [|c s IH]; cbn; [reflexivity|].
  intros H. apply andb_true_iff in H. destruct H as [Hc H].
  rewrite (Hpq c Hc), IH by exact H. reflexivity.
Qed.

Lemma lstrip_int_chars (s : string) :
  all_chars int_char (lstrip s) = true -> all_chars int_char s = true.
Proof.
  induction s as [|c s IH]; cbn; [reflexivity|].
  destruct (is_space c) eqn:Hc; cbn; [|tauto].
  intros H. rewrite (IH H). unfold int_char. rewrite Hc, orb_true_r.
  reflexivity.
Qed.

Lemma strip_int_chars (s : string) :
  all_chars int_char (strip s) = true -> all_chars int_char s = true.
Proof.
  unfold strip, rstrip, srev. intros H.
  rewrite all_chars_srev_onto, andb_true_r in H.
  apply lstrip_int_chars in H.
  rewrite all_chars_srev_onto, andb_true_r in H.
  apply lstrip_int_chars in H. exact H.
Qed.

(** X16.  The digit pre-filter refuses every string that holds a
    character other than a digit, a sign, an underscore or white
    space (a letter, a colon, a point): the metadata labels and other
    words never reach [strptime]. *)
Theorem represents_int_rejects_other_characters (s : string)
    (Hother : all_chars int_char s = false) :
  represents_int s = Ret false.
Proof.
  rewrite represents_int_returns. f_equal.
  destruct (py_int s) as [n|] eqn:E; [|reflexivity].
  exfalso. rewrite strip_int_chars in Hother; [discriminate|].
  unfold py_int in E.
  assert (Hw : forall c, is_digit c || Ascii.eqb c "_" = true ->
                         int_char c = true).
  { intros c Hc. unfold int_char. apply orb_true_iff in Hc.
    destruct Hc as [-> | ->]; [reflexivity | apply orb_true_r]. }
  destruct (strip s) as [|c r] eqn:Es; [reflexivity|].
  destruct (Ascii.eqb c "-") eqn:Em;
    [|destruct (Ascii.eqb c "+") eqn:Ep].
  - destruct (MAX_STR_DIGITS <? digit_count r); [discriminate|].
    destruct (int_digits 0 false r) eqn:Ei; [|discriminate].
    cbn. unfold int_char at 1. rewrite Em. rewrite !orb_true_r. cbn.
    exact (all_chars_weaken _ _ r Hw (int_digits_chars r _ _ _ Ei)).
  - destruct (MAX_STR_DIGITS <? digit_count r); [discriminate|].
    destruct (int_digits 0 false r) eqn:Ei; [|discriminate].
    cbn. unfold int_char at 1. rewrite Ep. rewrite !orb_true_r. cbn.
    exact (all_chars_weaken _ _ r Hw (int_digits_chars r _ _ _ Ei)).
  - destruct (MAX_STR_DIGITS <? digit_count (String c r)); [discriminate|].
    destruct (int_digits 0 false (String c r)) eqn:Ei; [|discriminate].
    exact (all_chars_weaken _ _ _ Hw (int_digits_chars _ _ _ _ Ei)).
Qed.

(* ----------------------------------------------------------------- *)
(** ** The whole run *)

Section WholeRun.

Context (C : collaborators).

Lemma main_for_run (start_d end_d : date) (dates : list date)
      (feed : list (list string)) (s : state) :
  valid_date start_d = true -> valid_date end_d = true ->
  date_range start_d end_d = Ret dates ->
  main_for C (isoformat start_d) (isoformat end_d) feed s
  = match _ensure_images_downloaded C start_d end_d s with
    | (Ret _, s1) =>
        (open_for_writing OUTPUT_CSV ;;
         open_for_reading METEOBLUE_CSV ;;
         for_each feed (merge_row C dates)) s1
    | (Raise e, s1) => (Raise e, s1)
    end.
Proof.
  intros Hs He Hdates. unfold main_for. cbv [bind lift].
  rewrite (date_of_iso_isoformat start_d Hs), (date_of_iso_isoformat end_d He).
  rewrite Hdates.
  destruct (_ensure_images_downloaded C start_d end_d s) as [[[]|e] s1];
    reflexivity.
Qed.


(** X18.  A run whose trigger raises stops there, with the trigger's
    exception and in the trigger's state: the output table is not
    opened and no feed row is looked at. *)
Theorem main_stops_when_trigger_raises
    (start_d end_d : date) (dates : list date)
    (feed : list (list string)) (s s1 : state) (e : exn)
    (Hstart : valid_date start_d = true)
    (Hend : valid_date end_d = true)
    (Hdates : date_range start_d end_d = Ret dates)
    (Htrigger : _ensure_images_downloaded C start_d end_d s = (Raise e, s1)) :
  main_for C (isoformat start_d) (isoformat end_d) feed s = (Raise e, s1).
Proof.
  rewrite (main_for_run start_d end_d dates feed s Hstart Hend Hdates).
  rewrite Htrigger. reflexivity.
Qed.

End WholeRun.

(* ----------------------------------------------------------------- *)
(** ** Worked instances of the further properties *)

Lemma feature_computer_success_witness :
  _cloud_cover_from_file sample_collaborators
    "sky_camera_images/2019-05-23-09-00-0.jpg" sample_state
  = (Ret (Some (S754_finite false 5 (-1))),
     mkState (fs sample_state) []
       [os_path_exists_called "sky_camera_images/2019-05-23-09-00-0.jpg";
        load_and_trim_called "sky_camera_images/2019-05-23-09-00-0.jpg";
        process_image_rb_ratio_called; calculate_cloud_cover_called]).
Proof.
  apply (feature_computer_success sample_collaborators
           "sky_camera_images/2019-05-23-09-00-0.jpg" sample_state tt tt tt);
    try reflexivity.
  discriminate.
Defined.



Lemma trigger_downloads_once_witness :
  _ensure_images_downloaded sample_collaborators may_23 may_23 bare_state
  = (Ret tt,
     mkState (with_image_dir (fs bare_state)) []
       [os_makedirs_called "sky_camera_images";
        os_listdir_called "sky_camera_images";
        download_sky_camera_images_called "2019-05-23" "2019-05-23"]).
Proof.
  exact (proj1 (trigger_downloads_once sample_collaborators may_23 may_23
                  bare_state (or_introl eq_refl))).
Defined.

Lemma trigger_refuses_regular_file_witness :
  _ensure_images_downloaded sample_collaborators may_23 may_23 blocked_state
  = (Raise FileExistsError,
     mkState (fs blocked_state) [] [os_makedirs_called "sky_camera_images"]).
Proof.
  exact (trigger_refuses_regular_file sample_collaborators may_23 may_23
           blocked_state eq_refl).
Defined.

Lemma iso_date_roundtrip_witness :
  isoformat (mkDate 2020 2 29) = "2020-02-29"
  /\ date_of_iso "2020-02-29" = Ret (mkDate 2020 2 29).
Proof.
  split; [reflexivity|].
  exact (proj2 (iso_date_roundtrip (mkDate 2020 2 29) eq_refl)).
Defined.

Lemma locator_injective_witness :
  _sky_image_filename (mkDateTime may_23 9 0)
  <> _sky_image_filename (mkDateTime may_23 9 5).
Proof.
  apply locator_injective; [reflexivity | reflexivity | discriminate].
Defined.

Lemma date_range_to_last_date_raises_witness :
  date_range (mkDate 9999 12 30) (mkDate 9999 12 31) = Raise OverflowError.
Proof.
  exact (date_range_to_last_date_raises (mkDate 9999 12 30) eq_refl).
Defined.

Lemma represents_int_accepts_padding_witness :
  represents_int " +2019052" = Ret true
  /\ represents_int (sevens 4300) = Ret true
  /\ represents_int (sevens 4301) = Ret false.
Proof.
  split; [|split].
  - apply (represents_int_accepts_padding " " "+" "2019052" "");
      try reflexivity.
    + right. left. reflexivity.
    + discriminate.
  - rewrite <- (append_empty_r (sevens 4300)).
    apply (represents_int_accepts_padding "" "" (sevens 4300) "");
      try (vm_compute; reflexivity).
    + left. reflexivity.
    + discriminate.
  - rewrite <- (append_empty_r (sevens 4301)).
    apply (represents_int_accepts_padding "" "" (sevens 4301) "");
      try (vm_compute; reflexivity).
    + left. reflexivity.
    + discriminate.
Defined.

Lemma image_path_in_directory_witness :
  os_path_join SKY_IMAGE_DIR (_sky_image_filename (mkDateTime may_23 9 5))
  = "sky_camera_images/2019-05-23-09-05-0.jpg"
  /\ String.length
       (os_path_join SKY_IMAGE_DIR (_sky_image_filename (mkDateTime may_23 9 5)))
     = 40%nat.
Proof.
  destruct (image_path_in_directory (mkDateTime may_23 9 5)) as [H1 H2].
  split; [exact H1|]. apply H2; [reflexivity | cbn; lia].
Defined.

Lemma merger_lets_exit_signal_through_witness :
  exists l,
    for_each [["20190523T0900"; "17.2"]; ["20190523T1000"; "18.0"]]
             (merge_row interrupted_imports [may_23]) sample_state
    = (Raise KeyboardInterrupt, mkState (fs sample_state) [] l).
Proof.
  destruct (merger_lets_exit_signal_through interrupted_imports [may_23]
              "20190523T0900" ["17.2"] [["20190523T1000"; "18.0"]]
              sample_state (mkDateTime may_23 9 0) KeyboardInterrupt)
    as (l & _ & Hrun).
  - reflexivity.
  - reflexivity.
  - left. reflexivity.
  - discriminate.
  - apply load_raises. reflexivity.
  - reflexivity.
  - exists l. exact Hrun.
Defined.

Lemma represents_int_rejects_other_characters_witness :
  represents_int "variable" = Ret false.
Proof.
  exact (represents_int_rejects_other_characters "variable" eq_refl).
Defined.


Lemma main_stops_when_trigger_raises_witness :
  main sample_collaborators [["20190523T0900"; "17.2"]] blocked_state
  = (Raise FileExistsError,
     mkState (fs blocked_state) [] [os_makedirs_called "sky_camera_images"]).
Proof.
  apply (main_stops_when_trigger_raises sample_collaborators may_23 may_23
           [may_23]); reflexivity.
Defined.
